(** * Circleverse: household wealth formation simulation

    A shallow embedding of [simulation.py] (classes [Dot], [ClusterCube],
    [Circlverse] and [CircleverseSimulation]) and the properties of its
    monthly update, its statistics and its controller.

    Numbers.  Python's [float] is IEEE 754 binary64 with round-to-nearest-even,
    which is exactly Rocq's primitive [float]; money amounts are modelled with
    it, so every arithmetic result below carries the rounding the program has.
    Python's [int] is modelled by [Z]; an [int] that flows into float
    arithmetic is converted with [Py.of_Z], the correctly rounded conversion.

    Objects.  Each class is a record in a module of its own and a method is a
    function from the receiver to its updated value.  A container holds its
    elements by value: the callers in this repository create each household,
    add it to one community once, and give every object lists of its own, so
    no property below depends on two names for one object.

    Randomness.  Every call of the [random] module is an explicit argument:
    the value that the call returned. *)

From Stdlib Require Import ZArith Floats Bool List Lia Sorting.Sorted.
From stdpp Require Import base option list gmap strings.

Set Warnings "-inexact-float".

Local Open Scope Z_scope.

(** ** Python values and built-ins *)

Module Py.

(** The exceptions the modelled built-ins can raise. *)
Inductive exn : Set :=
| ZeroDivisionError
| IndexError
| ValueError.

(** The outcome of an expression that may raise. *)
Inductive result (A : Type) : Type :=
| Return (a : A)
| Raise (e : exn).
Arguments Return {A} a.
Arguments Raise {A} e.

Definition bind {A B : Type} (r : result A) (k : A -> result B) : result B :=
  match r with
  | Return a => k a
  | Raise e => Raise e
  end.

(** [float(z)] for an [int] [z]: the nearest binary64 value, ties to even.
    (CPython raises [OverflowError] from [2^1024] on; the model gives
    [infinity] there, a magnitude no count of this program reaches.) *)
Definition of_Z (z : Z) : float :=
  SF2Prim (binary_normalize prec emax z 0 false).

(** [sum(xs)] over floats: accumulation from the left, starting at [0].
    (CPython from 3.12 on carries a correction term through this loop.  The
    properties below either hold for whatever float [sum] returns, or
    evaluate it on lists where the corrected sum is the same float.) *)
Definition sum (xs : list float) : float :=
  fold_left PrimFloat.add xs 0%float.

(** [x / y] on floats raises on a zero divisor. *)
Definition truediv (x y : float) : result float :=
  if (y =? 0)%float then Raise ZeroDivisionError
  else Return (x / y)%float.

(** [x / n] for a float [x] and an [int] [n]: [n] is converted, and the
    divisor is zero exactly when [n] is. *)
Definition truediv_int (x : float) (n : Z) : result float :=
  if n =? 0 then Raise ZeroDivisionError
  else Return (x / of_Z n)%float.

(** [min(xs)] and [max(xs)]: the first extremal element under [<] and [>];
    [ValueError] on an empty argument. *)
Definition min (xs : list float) : result float :=
  match xs with
  | [] => Raise ValueError
  | x :: rest =>
      Return (fold_left (fun m y => if (y <? m)%float then y else m) rest x)
  end.

Definition max (xs : list float) : result float :=
  match xs with
  | [] => Raise ValueError
  | x :: rest =>
      Return (fold_left (fun m y => if (m <? y)%float then y else m) rest x)
  end.

(** [sorted(xs)]: a stable sort by [<].  Stability fixes the result for
    every list that [<] orders totally, that is, every list without NaN. *)
Fixpoint insert (x : float) (l : list float) : list float :=
  match l with
  | [] => [x]
  | y :: l' => if (y <? x)%float then y :: insert x l' else x :: l
  end.

Definition sorted (xs : list float) : list float :=
  foldr insert [] xs.

(** [xs[i]] for an index [i >= 0]: [IndexError] past the end. *)
Definition getitem {A : Type} (xs : list A) (i : nat) : result A :=
  match xs !! i with
  | Some x => Return x
  | None => Raise IndexError
  end.

End Py.

(** [result] is a monad: [x ← r; k] runs [k] on the value of [r] and lets an
    exception of [r] through. *)
Global Instance result_ret : MRet Py.result := @Py.Return.
Global Instance result_bind : MBind Py.result :=
  fun A B k r => Py.bind r k.

(** ** Occupations *)

Inductive OccupationType : Set :=
| PROFESSIONAL
| SKILLED_TRADE
| SERVICE
| RETAIL
| UNEMPLOYED.

Global Instance OccupationType_eq_dec : EqDecision OccupationType.
Proof. solve_decision. Defined.

(** [list(OccupationType)] *)
Definition occupations : list OccupationType :=
  [PROFESSIONAL; SKILLED_TRADE; SERVICE; RETAIL; UNEMPLOYED].

(** Monthly base income by occupation. *)
Definition OCCUPATION_INCOME (o : OccupationType) : Z :=
  match o with
  | PROFESSIONAL => 8000
  | SKILLED_TRADE => 5000
  | SERVICE => 3000
  | RETAIL => 2500
  | UNEMPLOYED => 0
  end.

(** ** Dot: a household member *)

Module Dot.

Record t : Set := mk {
  age : Z;
  occupation : OccupationType;
  is_working : bool
}.

Definition get_monthly_income (self : t) : float :=
  let base_income := OCCUPATION_INCOME (occupation self) in
  if negb (is_working self) then 0%float
  else
    let age_factor :=
      if (25 <=? age self) && (age self <=? 50) then 1.2%float
      else if (age self <? 25) || (65 <? age self) then 0.8%float
      else 1.0%float in
    (Py.of_Z base_income * age_factor)%float.

End Dot.

(** ** ClusterCube: a household *)

Module ClusterCube.

Record t : Type := mk {
  cube_id : string;
  num_dots : Z;
  dots : list Dot.t;
  num_dependents : Z;
  location : float * float;
  current_wealth : float;
  savings_rate : float;
  monthly_expenses : float;
  wealth_history : list float;
  income_history : list float;
  expense_history : list float
}.

(** The field defaults of the dataclass. *)
Definition default (cube_id : string) (num_dots : Z) : t :=
  {| cube_id := cube_id; num_dots := num_dots; dots := [];
     num_dependents := 0; location := (0%float, 0%float);
     current_wealth := 0%float; savings_rate := 0.15%float;
     monthly_expenses := 0%float;
     wealth_history := []; income_history := []; expense_history := [] |}.

Definition set_dots (self : t) (ds : list Dot.t) : t :=
  {| cube_id := cube_id self; num_dots := num_dots self; dots := ds;
     num_dependents := num_dependents self; location := location self;
     current_wealth := current_wealth self;
     savings_rate := savings_rate self;
     monthly_expenses := monthly_expenses self;
     wealth_history := wealth_history self;
     income_history := income_history self;
     expense_history := expense_history self |}.

Definition set_monthly_expenses (self : t) (e : float) : t :=
  {| cube_id := cube_id self; num_dots := num_dots self; dots := dots self;
     num_dependents := num_dependents self; location := location self;
     current_wealth := current_wealth self;
     savings_rate := savings_rate self;
     monthly_expenses := e;
     wealth_history := wealth_history self;
     income_history := income_history self;
     expense_history := expense_history self |}.

Definition set_current_wealth (self : t) (w : float) : t :=
  {| cube_id := cube_id self; num_dots := num_dots self; dots := dots self;
     num_dependents := num_dependents self; location := location self;
     current_wealth := w;
     savings_rate := savings_rate self;
     monthly_expenses := monthly_expenses self;
     wealth_history := wealth_history self;
     income_history := income_history self;
     expense_history := expense_history self |}.

Definition set_location (self : t) (loc : float * float) : t :=
  {| cube_id := cube_id self; num_dots := num_dots self; dots := dots self;
     num_dependents := num_dependents self; location := loc;
     current_wealth := current_wealth self;
     savings_rate := savings_rate self;
     monthly_expenses := monthly_expenses self;
     wealth_history := wealth_history self;
     income_history := income_history self;
     expense_history := expense_history self |}.

(** [_generate_dots]: member [i] gets the age [fst (draws i)] returned by
    [random.randint] and the occupation [snd (draws i)] returned by
    [random.choice(occupations)]. *)
Definition _generate_dots (self : t) (draws : nat -> Z * OccupationType)
  : list Dot.t :=
  map (fun i =>
         let age := fst (draws i) in
         let occupation :=
           if (age <? 18) || (65 <? age) then UNEMPLOYED
           else snd (draws i) in
         Dot.mk age occupation ((18 <=? age) && (age <=? 65)))
      (seq 0 (Z.to_nat (num_dots self))).

Definition _calculate_base_expenses (self : t) : t :=
  let base_housing := 1500 + (num_dots self + num_dependents self) * 400 in
  let base_food := 300 + (num_dots self + num_dependents self) * 150 in
  let base_other := 500 + (num_dots self + num_dependents self) * 100 in
  set_monthly_expenses self (Py.of_Z (base_housing + base_food + base_other)).

Definition __post_init__ (self : t) (draws : nat -> Z * OccupationType) : t :=
  let self :=
    match dots self with
    | [] => if 0 <? num_dots self
            then set_dots self (_generate_dots self draws)
            else self
    | _ :: _ => self
    end in
  _calculate_base_expenses self.

Definition get_total_income (self : t) : float :=
  Py.sum (map Dot.get_monthly_income (dots self)).

(** [simulate_month]; [variation] is the value returned by
    [random.uniform(-0.1, 0.1)].  The result pairs the updated household
    with the returned dictionary. *)
Definition simulate_month (self : t)
    (cost_of_living_index economic_multiplier variation : float)
  : t * gmap string float :=
  let base_income := (get_total_income self * economic_multiplier)%float in
  let expenses := (monthly_expenses self * cost_of_living_index)%float in
  let expenses := (expenses * (1.0 + variation))%float in
  let net_income := (base_income - expenses)%float in
  let savings :=
    if (0 <? net_income)%float
    then (net_income * savings_rate self)%float
    else 0%float in
  let wealth := (current_wealth self + savings)%float in
  ({| cube_id := cube_id self; num_dots := num_dots self;
      dots := dots self; num_dependents := num_dependents self;
      location := location self;
      current_wealth := wealth;
      savings_rate := savings_rate self;
      monthly_expenses := monthly_expenses self;
      wealth_history := wealth_history self ++ [wealth];
      income_history := income_history self ++ [base_income];
      expense_history := expense_history self ++ [expenses] |},
   <["income" := base_income]>
     (<["expenses" := expenses]>
        (<["net_income" := net_income]>
           (<["savings" := savings]>
              (<["wealth" := wealth]> ∅))))).

(** The members a job loss can hit. *)
Definition employed (d : Dot.t) : bool :=
  Dot.is_working d && negb (bool_decide (Dot.occupation d = UNEMPLOYED)).

(** The positions in [ds] (counted from [i]) of the members collected in
    [working_dots]; the list comprehension keeps references to the members
    themselves, so position [j] of this list stands for [working_dots[j]]. *)
Fixpoint working_positions (ds : list Dot.t) (i : nat) : list nat :=
  match ds with
  | [] => []
  | d :: ds' =>
      if employed d then i :: working_positions ds' (S i)
      else working_positions ds' (S i)
  end.

Definition lose_job (d : Dot.t) : Dot.t :=
  Dot.mk (Dot.age d) UNEMPLOYED false.

(** [apply_economic_shock]; [choice] is the index that
    [random.choice(working_dots)] drew, taken modulo the length. *)
Definition apply_economic_shock (self : t) (shock_type : string)
    (magnitude : float) (choice : nat) : t :=
  if bool_decide (shock_type = "job_loss"%string) then
    let working_dots := working_positions (dots self) 0 in
    match working_dots with
    | [] => self
    | p :: _ =>
        let j := nth (choice mod length working_dots)%nat working_dots p in
        set_dots self (alter lose_job j (dots self))
    end
  else if bool_decide (shock_type = "medical"%string) then
    set_current_wealth self (current_wealth self + magnitude)%float
  else if bool_decide (shock_type = "windfall"%string) then
    set_current_wealth self (current_wealth self + magnitude)%float
  else self.

End ClusterCube.

(** ** The random source of the monthly update *)

Module Random.

(** [uniform_at g i] is the value that the [i]-th call of
    [random.uniform(-0.1, 0.1)] returns; [cursor g] counts the calls made
    so far. *)
Record t : Type := mk {
  uniform_at : nat -> float;
  cursor : nat
}.

Definition uniform (g : t) : float * t :=
  (uniform_at g (cursor g), mk (uniform_at g) (S (cursor g))).

End Random.

(** ** Circlverse: a community *)

Module Circlverse.

Record t : Type := mk {
  circlverse_id : string;
  radius : float;
  economic_multiplier : float;
  cost_of_living_index : float;
  cluster_cubes : list ClusterCube.t;
  total_wealth : float;
  average_wealth : float;
  wealth_history : list float
}.

(** The field defaults of the dataclass. *)
Definition default (circlverse_id : string) : t :=
  {| circlverse_id := circlverse_id; radius := 100.0%float;
     economic_multiplier := 1.0%float; cost_of_living_index := 1.0%float;
     cluster_cubes := []; total_wealth := 0%float;
     average_wealth := 0%float; wealth_history := [] |}.

Definition set_cluster_cubes (self : t) (cubes : list ClusterCube.t) : t :=
  {| circlverse_id := circlverse_id self; radius := radius self;
     economic_multiplier := economic_multiplier self;
     cost_of_living_index := cost_of_living_index self;
     cluster_cubes := cubes;
     total_wealth := total_wealth self;
     average_wealth := average_wealth self;
     wealth_history := wealth_history self |}.

Definition set_wealth_history (self : t) (h : list float) : t :=
  {| circlverse_id := circlverse_id self; radius := radius self;
     economic_multiplier := economic_multiplier self;
     cost_of_living_index := cost_of_living_index self;
     cluster_cubes := cluster_cubes self;
     total_wealth := total_wealth self;
     average_wealth := average_wealth self;
     wealth_history := h |}.

(** [add_cluster_cube]; [loc] is the point that the method computes from
    its two random draws (an angle and a distance). *)
Definition add_cluster_cube (self : t) (cube : ClusterCube.t)
    (loc : float * float) : t :=
  set_cluster_cubes self
    (cluster_cubes self ++ [ClusterCube.set_location cube loc]).

Definition wealths (self : t) : list float :=
  map ClusterCube.current_wealth (cluster_cubes self).

(** [_update_metrics].  In the first branch the divisor is the length of a
    non-empty list, so the division cannot raise. *)
Definition _update_metrics (self : t) : t :=
  match cluster_cubes self with
  | _ :: _ =>
      let total := Py.sum (wealths self) in
      let average :=
        (total / Py.of_Z (Z.of_nat (length (cluster_cubes self))))%float in
      {| circlverse_id := circlverse_id self; radius := radius self;
         economic_multiplier := economic_multiplier self;
         cost_of_living_index := cost_of_living_index self;
         cluster_cubes := cluster_cubes self;
         total_wealth := total;
         average_wealth := average;
         wealth_history := wealth_history self ++ [average] |}
  | [] =>
      {| circlverse_id := circlverse_id self; radius := radius self;
         economic_multiplier := economic_multiplier self;
         cost_of_living_index := cost_of_living_index self;
         cluster_cubes := cluster_cubes self;
         total_wealth := 0.0%float;
         average_wealth := 0.0%float;
         wealth_history := wealth_history self ++ [0.0%float] |}
  end.

(** The loop of [simulate_month] over the households, in membership order;
    each household takes one draw of the random source. *)
Fixpoint simulate_cubes (cubes : list ClusterCube.t)
    (cost_of_living_index economic_multiplier : float) (g : Random.t)
  : list ClusterCube.t * Random.t :=
  match cubes with
  | [] => ([], g)
  | cube :: rest =>
      let (variation, g) := Random.uniform g in
      let cube :=
        fst (ClusterCube.simulate_month cube cost_of_living_index
               economic_multiplier variation) in
      let (rest, g) :=
        simulate_cubes rest cost_of_living_index economic_multiplier g in
      (cube :: rest, g)
  end.

Definition simulate_month (self : t) (g : Random.t) : t * Random.t :=
  let (cubes, g) :=
    simulate_cubes (cluster_cubes self) (cost_of_living_index self)
      (economic_multiplier self) g in
  (_update_metrics (set_cluster_cubes self cubes), g).

Definition get_wealth_distribution (self : t)
  : Py.result (gmap string float) :=
  match cluster_cubes self with
  | [] => Py.Return ∅
  | _ :: _ =>
      let wealths := wealths self in
      let n := Z.of_nat (length wealths) in
      vmin ← Py.min wealths;
      vmax ← Py.max wealths;
      mean ← Py.truediv_int (Py.sum wealths) n;
      median ← Py.getitem (Py.sorted wealths) (Z.to_nat (n / 2));
      Py.Return
        (<["min" := vmin]>
           (<["max" := vmax]>
              (<["mean" := mean]>
                 (<["median" := median]>
                    (<["total" := Py.sum wealths]> ∅)))))
  end.

(** The [for i, wealth in enumerate(wealths)] loop of the Gini coefficient,
    from index [i] with the running value [cumsum]. *)
Fixpoint gini_loop (wealths : list float) (i n : Z) (cumsum : float)
  : float :=
  match wealths with
  | [] => cumsum
  | wealth :: rest =>
      gini_loop rest (i + 1) n
        (cumsum + wealth * Py.of_Z (2 * (i + 1) - n - 1))%float
  end.

Definition calculate_gini_coefficient (self : t) : Py.result float :=
  if bool_decide (cluster_cubes self = [])
     || (Z.of_nat (length (cluster_cubes self)) <? 2)
  then Py.Return 0.0%float
  else
    let wealths := Py.sorted (wealths self) in
    let n := Z.of_nat (length wealths) in
    let cumsum := gini_loop wealths 0 n 0%float in
    if (Py.sum wealths =? 0)%float then Py.Return 0.0%float
    else Py.truediv cumsum (Py.of_Z n * Py.sum wealths)%float.

End Circlverse.

(** ** CircleverseSimulation: the controller *)

Module CircleverseSimulation.

Record t : Type := mk {
  circlverses : list Circlverse.t;
  current_month : Z;
  is_paused : bool;
  simulation_speed : Z
}.

Definition __init__ : t :=
  {| circlverses := []; current_month := 0; is_paused := false;
     simulation_speed := 1 |}.

Definition add_circlverse (self : t) (circlverse : Circlverse.t) : t :=
  {| circlverses := circlverses self ++ [circlverse];
     current_month := current_month self;
     is_paused := is_paused self;
     simulation_speed := simulation_speed self |}.

(** The inner loop of [step]: one month for every community, in order. *)
Fixpoint simulate_circlverses (cvs : list Circlverse.t) (g : Random.t)
  : list Circlverse.t * Random.t :=
  match cvs with
  | [] => ([], g)
  | cv :: rest =>
      let (cv, g) := Circlverse.simulate_month cv g in
      let (rest, g) := simulate_circlverses rest g in
      (cv :: rest, g)
  end.

(** The outer loop of [step], for the [k] values of [range(months)]. *)
Fixpoint step_loop (k : nat) (self : t) (g : Random.t) : t * Random.t :=
  match k with
  | O => (self, g)
  | S k' =>
      let (cvs, g) := simulate_circlverses (circlverses self) g in
      step_loop k'
        {| circlverses := cvs;
           current_month := current_month self + 1;
           is_paused := is_paused self;
           simulation_speed := simulation_speed self |} g
  end.

Definition step (self : t) (months : Z) (g : Random.t) : t * Random.t :=
  if is_paused self then (self, g)
  else step_loop (Z.to_nat months) self g.

(** The [while] loop of [run_until], for at most [fuel] iterations. *)
Fixpoint run_until_loop (fuel : nat) (self : t) (target_month : Z)
    (g : Random.t) : t * Random.t :=
  match fuel with
  | O => (self, g)
  | S fuel' =>
      if (current_month self <? target_month) && negb (is_paused self)
      then
        let (self, g) := step self 1 g in
        run_until_loop fuel' self target_month g
      else (self, g)
  end.

(** [run_until]: every iteration advances the month by one, so the
    distance to the target bounds the number of iterations. *)
Definition run_until (self : t) (target_month : Z) (g : Random.t)
  : t * Random.t :=
  run_until_loop (Z.to_nat (target_month - current_month self))
    self target_month g.

Definition pause (self : t) : t :=
  {| circlverses := circlverses self;
     current_month := current_month self;
     is_paused := true;
     simulation_speed := simulation_speed self |}.

Definition resume (self : t) : t :=
  {| circlverses := circlverses self;
     current_month := current_month self;
     is_paused := false;
     simulation_speed := simulation_speed self |}.

Definition reset_cube (cube : ClusterCube.t) : ClusterCube.t :=
  {| ClusterCube.cube_id := ClusterCube.cube_id cube;
     ClusterCube.num_dots := ClusterCube.num_dots cube;
     ClusterCube.dots := ClusterCube.dots cube;
     ClusterCube.num_dependents := ClusterCube.num_dependents cube;
     ClusterCube.location := ClusterCube.location cube;
     ClusterCube.current_wealth := 0.0%float;
     ClusterCube.savings_rate := ClusterCube.savings_rate cube;
     ClusterCube.monthly_expenses := ClusterCube.monthly_expenses cube;
     ClusterCube.wealth_history := [];
     ClusterCube.income_history := [];
     ClusterCube.expense_history := [] |}.

Definition reset_circlverse (cv : Circlverse.t) : Circlverse.t :=
  Circlverse.set_wealth_history
    (Circlverse.set_cluster_cubes cv
       (map reset_cube (Circlverse.cluster_cubes cv)))
    [].

Definition reset (self : t) : t :=
  {| circlverses := map reset_circlverse (circlverses self);
     current_month := 0;
     is_paused := is_paused self;
     simulation_speed := simulation_speed self |}.

(** A value of the dictionary of [get_global_statistics]. *)
Inductive number : Set :=
| Int (z : Z)
| Float (f : float).

Definition all_wealths (self : t) : list float :=
  flat_map Circlverse.wealths (circlverses self).

Definition get_global_statistics (self : t)
  : Py.result (gmap string number) :=
  let all_wealths := all_wealths self in
  match all_wealths with
  | [] => Py.Return ∅
  | _ :: _ =>
      let total_households :=
        fold_left Z.add
          (map (fun cv => Z.of_nat (length (Circlverse.cluster_cubes cv)))
             (circlverses self)) 0 in
      avg ← Py.truediv_int (Py.sum all_wealths)
              (Z.of_nat (length all_wealths));
      vmin ← Py.min all_wealths;
      vmax ← Py.max all_wealths;
      Py.Return
        (<["total_households" := Int total_households]>
           (<["total_circlverses" :=
                Int (Z.of_nat (length (circlverses self)))]>
              (<["current_month" := Int (current_month self)]>
                 (<["global_avg_wealth" := Float avg]>
                    (<["global_total_wealth" := Float (Py.sum all_wealths)]>
                       (<["global_min_wealth" := Float vmin]>
                          (<["global_max_wealth" := Float vmax]> ∅)))))))
  end.

End CircleverseSimulation.

(** ** Sessions: sequences of operations on one simulation *)

Module Session.

Import CircleverseSimulation.

(** The operations a caller can perform on a simulation and on the
    communities and households reachable from it.  A community is named by
    its position [i] in [circlverses], a household by its position [j] in
    the community's [cluster_cubes]; a position past the end names no
    object, and the operation then does nothing. *)
Inductive command : Type :=
| AddCirclverse (cv : Circlverse.t)
| AddClusterCube (i : nat) (cube : ClusterCube.t) (loc : float * float)
| Shock (i j : nat) (shock_type : string) (magnitude : float) (choice : nat)
| Step (months : Z)
| RunUntil (target_month : Z)
| Pause
| Resume
| Reset.

(** A simulation together with the random source and a record of the
    [step] calls completed since construction or the last [reset]: for each
    call, whether the simulation was paused when it was made, and its
    [months] argument.  The record is not program state; it is what the
    properties of the month counter count. *)
Record t : Type := mk {
  sim : CircleverseSimulation.t;
  rng : Random.t;
  step_calls : list (bool * Z)
}.

Definition start (g : Random.t) : t :=
  {| sim := __init__; rng := g; step_calls := [] |}.

Definition on_sim (f : CircleverseSimulation.t -> CircleverseSimulation.t)
    (s : t) : t :=
  {| sim := f (sim s); rng := rng s; step_calls := step_calls s |}.

Definition on_circlverse (i : nat) (f : Circlverse.t -> Circlverse.t)
    (self : CircleverseSimulation.t) : CircleverseSimulation.t :=
  {| circlverses := alter f i (circlverses self);
     current_month := current_month self;
     is_paused := is_paused self;
     simulation_speed := simulation_speed self |}.

(** One call [self.step(months)], recorded. *)
Definition call_step (months : Z) (s : t) : t :=
  let (self, g) := step (sim s) months (rng s) in
  {| sim := self; rng := g;
     step_calls := step_calls s ++ [(is_paused (sim s), months)] |}.

(** The loop of [run_until], each [self.step(1)] recorded. *)
Fixpoint call_run_until_loop (fuel : nat) (target_month : Z) (s : t) : t :=
  match fuel with
  | O => s
  | S fuel' =>
      if (current_month (sim s) <? target_month)
         && negb (is_paused (sim s))
      then call_run_until_loop fuel' target_month (call_step 1 s)
      else s
  end.

Definition call_run_until (target_month : Z) (s : t) : t :=
  call_run_until_loop (Z.to_nat (target_month - current_month (sim s)))
    target_month s.

Definition exec (s : t) (c : command) : t :=
  match c with
  | AddCirclverse cv => on_sim (fun self => add_circlverse self cv) s
  | AddClusterCube i cube loc =>
      on_sim (on_circlverse i
                (fun cv => Circlverse.add_cluster_cube cv cube loc)) s
  | Shock i j shock_type magnitude choice =>
      on_sim (on_circlverse i
                (fun cv =>
                   Circlverse.set_cluster_cubes cv
                     (alter (fun cube =>
                               ClusterCube.apply_economic_shock cube
                                 shock_type magnitude choice)
                        j (Circlverse.cluster_cubes cv)))) s
  | Step months => call_step months s
  | RunUntil target_month => call_run_until target_month s
  | Pause => on_sim pause s
  | Resume => on_sim resume s
  | Reset =>
      {| sim := reset (sim s); rng := rng s; step_calls := [] |}
  end.

Definition run (cs : list command) (s : t) : t :=
  fold_left exec cs s.

(** The number of completed [step] calls since construction or the last
    [reset]. *)
Definition completed_step_calls (s : t) : Z :=
  Z.of_nat (length (step_calls s)).

(** The months that the recorded [step] calls simulated: a call made while
    paused simulates none, a call [step(months)] made while running
    simulates [months] of them (none for [months <= 0]). *)
Definition months_simulated_by (call : bool * Z) : Z :=
  if fst call then 0 else Z.max 0 (snd call).

Definition months_simulated (s : t) : Z :=
  fold_right Z.add 0 (map months_simulated_by (step_calls s)).

End Session.

(** ** The Gini coefficient as the specification words it *)

(** [Σ w[i]·(2(i+1) − n − 1) / (n · Σw)] for the wealths [w[0..n-1]]: the
    terms of the numerator added in index order, [Σw] as [sum] gives it, and
    every operation in float arithmetic. *)
Definition gini_formula (w : list float) : Py.result float :=
  let n := Z.of_nat (length w) in
  let terms :=
    imap (fun i wi => (wi * Py.of_Z (2 * (Z.of_nat i + 1) - n - 1))%float) w in
  let numerator := fold_left PrimFloat.add terms 0%float in
  Py.truediv numerator (Py.of_Z n * Py.sum w)%float.

(** [x] and [y] are the same number: identical, or equal under [==] (which
    identifies [-0.0] and [0.0]). *)
Definition same_number (x y : float) : Prop :=
  x = y \/ (x =? y)%float = true.

(** The household of the worked scenario: a working professional aged 35, an
    unemployed member aged 32 who does not work, no dependents, savings rate
    0.20. *)
Definition scenario_household (cube_id : string)
    (draws : nat -> Z * OccupationType) : ClusterCube.t :=
  ClusterCube.__post_init__
    (ClusterCube.mk cube_id 2
       [Dot.mk 35 PROFESSIONAL true; Dot.mk 32 UNEMPLOYED false]
       0 (0%float, 0%float) 0.0%float 0.20%float 0.0%float [] [] [])
    draws.

(** ** What [reset] is to keep *)

(** The part of a household that is not wealth or history: identity, the
    members with their occupations and working states, dependents, location,
    savings rate and expense baseline. *)
Definition household_settings (cube : ClusterCube.t) :=
  (ClusterCube.cube_id cube, ClusterCube.num_dots cube, ClusterCube.dots cube,
   ClusterCube.num_dependents cube, ClusterCube.location cube,
   ClusterCube.savings_rate cube, ClusterCube.monthly_expenses cube).

(** The part of a community that is not history or aggregate: identity,
    radius, the two economic parameters, and the settings of its households
    in membership order. *)
Definition community_settings (cv : Circlverse.t) :=
  (Circlverse.circlverse_id cv, Circlverse.radius cv,
   Circlverse.economic_multiplier cv, Circlverse.cost_of_living_index cv,
   map household_settings (Circlverse.cluster_cubes cv)).

(** A household whose wealth is zero and whose histories are empty. *)
Definition household_cleared (cube : ClusterCube.t) : Prop :=
  ClusterCube.current_wealth cube = 0.0%float /\
  ClusterCube.wealth_history cube = [] /\
  ClusterCube.income_history cube = [] /\
  ClusterCube.expense_history cube = [].

(** ** Order on floats *)

(** [x <= y] on floats, as a relation. *)
Definition float_le (x y : float) : Prop := (x <=? y)%float = true.

(** The sign of a float is not negative: a zero, a positive number, plus
    infinity, or NaN. *)
Definition SF_nonneg (y : spec_float) : Prop :=
  match y with
  | S754_zero _ | S754_nan => True
  | S754_infinity s | S754_finite s _ _ => s = false
  end.

(** ** The invariant of the month counter *)

(** The counter is the number of months the recorded calls simulated. *)
Definition counted (s : Session.t) : Prop :=
  CircleverseSimulation.current_month (Session.sim s)
  = Session.months_simulated s.

(** ** Sample objects *)

(** A random source whose every draw is [0]. *)
Definition steady : Random.t := Random.mk (fun _ => 0%float) 0.

(** A household like the scenario's, with a given wealth. *)
Definition sample_cube (cube_id : string) (wealth : float) : ClusterCube.t :=
  ClusterCube.set_current_wealth
    (scenario_household cube_id (fun _ => (30, SERVICE))) wealth.

(** A community of sample households with the given wealths. *)
Definition sample_circlverse (wealths : list float) : Circlverse.t :=
  Circlverse.set_cluster_cubes (Circlverse.default "town")
    (map (sample_cube "home") wealths).

(** A simulation of one sample community that has run for two months. *)
Definition sample_simulation : CircleverseSimulation.t :=
  (CircleverseSimulation.step
     (CircleverseSimulation.add_circlverse CircleverseSimulation.__init__
        (sample_circlverse [0%float; 250%float]))
     2 steady).1.

(** ** The order of floats, by rank *)

(** The position of a float other than NaN on the number line: the sign
    class first, then exponent and mantissa (negated for negative floats). *)
Definition SFrank (x : spec_float) : Z * Z * Z :=
  match x with
  | S754_zero _ | S754_nan => (0, 0, 0)
  | S754_infinity false => (2, 0, 0)
  | S754_infinity true => (-2, 0, 0)
  | S754_finite false m e => (1, e, Z.pos m)
  | S754_finite true m e => (-1, - e, - Z.pos m)
  end.

(** Lexicographic comparison of ranks. *)
Definition rank_compare (a b : Z * Z * Z) : comparison :=
  match a.1.1 ?= b.1.1 with
  | Eq => match a.1.2 ?= b.1.2 with
          | Eq => a.2 ?= b.2
          | c => c
          end
  | c => c
  end.

(** ** How a simulation evolves over months *)

(** All households of a simulation, community by community. *)
Definition households (sim : CircleverseSimulation.t) : list ClusterCube.t :=
  flat_map Circlverse.cluster_cubes (CircleverseSimulation.circlverses sim).

(** [w'] is not less than [w]: it is NaN (an overflowed amount times a zero
    rate was added), or [w <= w']. *)
Definition never_less (w w' : float) : Prop :=
  is_nan w' = true \/ (w <=? w')%float = true.

(** [new] is [old] with [k] entries appended: the entries of [old] are
    kept, in their places, and [k] entries follow them. *)
Definition appended {A : Type} (k : nat) (old new : list A) : Prop :=
  exists entries : list A, new = old ++ entries /\ length entries = k.

(** What [k] simulated months do to a household: the settings stay, each
    history has [k] entries appended, a NaN wealth stays NaN, and with a
    savings rate that is not negative the wealth is not less than before. *)
Definition household_evolves (k : nat) (c c' : ClusterCube.t) : Prop :=
  household_settings c' = household_settings c /\
  appended k (ClusterCube.wealth_history c) (ClusterCube.wealth_history c') /\
  appended k (ClusterCube.income_history c) (ClusterCube.income_history c') /\
  appended k (ClusterCube.expense_history c)
    (ClusterCube.expense_history c') /\
  (is_nan (ClusterCube.current_wealth c) = true ->
   is_nan (ClusterCube.current_wealth c') = true) /\
  ((0 <=? ClusterCube.savings_rate c)%float = true ->
   never_less (ClusterCube.current_wealth c) (ClusterCube.current_wealth c')).

(** What [k] simulated months do to a community: identity, radius and the
    two economic parameters stay, the wealth history has [k] entries
    appended, and the households evolve one by one, in membership order. *)
Definition community_evolves (k : nat) (cv cv' : Circlverse.t) : Prop :=
  Circlverse.circlverse_id cv' = Circlverse.circlverse_id cv /\
  Circlverse.radius cv' = Circlverse.radius cv /\
  Circlverse.economic_multiplier cv' = Circlverse.economic_multiplier cv /\
  Circlverse.cost_of_living_index cv' = Circlverse.cost_of_living_index cv /\
  appended k (Circlverse.wealth_history cv) (Circlverse.wealth_history cv') /\
  Forall2 (household_evolves k)
    (Circlverse.cluster_cubes cv) (Circlverse.cluster_cubes cv').

(** The random source after [n] more draws. *)
Definition drawn (n : nat) (g : Random.t) : Random.t :=
  Random.mk (Random.uniform_at g) (Random.cursor g + n).

(** A community right after a month: its newest history entry is its average
    wealth, its total is the sum of its households' wealths, its average is
    the total over the number of households ([0.0] without households), and
    every household's newest wealth entry is its current wealth. *)
Definition community_settled (cv : Circlverse.t) : Prop :=
  last (Circlverse.wealth_history cv) = Some (Circlverse.average_wealth cv) /\
  Circlverse.total_wealth cv = Py.sum (Circlverse.wealths cv) /\
  Circlverse.average_wealth cv
  = match Circlverse.cluster_cubes cv with
    | [] => 0.0%float
    | _ :: _ =>
        (Circlverse.total_wealth cv
         / Py.of_Z (Z.of_nat (length (Circlverse.cluster_cubes cv))))%float
    end /\
  Forall (fun cube =>
            last (ClusterCube.wealth_history cube)
            = Some (ClusterCube.current_wealth cube))
    (Circlverse.cluster_cubes cv).

(** ** Employed members *)

(** The members of a household that a job loss can hit. *)
Definition employed_members (h : ClusterCube.t) : list Dot.t :=
  List.filter ClusterCube.employed (ClusterCube.dots h).

(** A sequence of job losses, one random choice for each. *)
Definition job_losses (h : ClusterCube.t) (choices : list nat)
  : ClusterCube.t :=
  fold_left (fun h choice =>
               ClusterCube.apply_economic_shock h "job_loss" 0%float choice)
    choices h.

(** ** Export of the histories *)

Module Csv.

(** A cell of a row handed to [csv.writer]: an [int], a [str] or a
    [float]. *)
Inductive cell : Type :=
| Int (z : Z)
| Str (s : string)
| Float (f : float).

End Csv.

(** The header row of the export. *)
Definition export_header : list Csv.cell :=
  [Csv.Str "Month"; Csv.Str "Circlverse_ID"; Csv.Str "Cube_ID";
   Csv.Str "Wealth"; Csv.Str "Income"; Csv.Str "Expenses";
   Csv.Str "Num_Dots"; Csv.Str "Num_Dependents"; Csv.Str "Location_X";
   Csv.Str "Location_Y"].

(** A [for] loop whose body writes rows: the rows of all iterations, in
    order, unless an iteration raises. *)
Fixpoint rows_of {A : Type}
    (body : A -> Py.result (list (list Csv.cell))) (xs : list A)
  : Py.result (list (list Csv.cell)) :=
  match xs with
  | [] => Py.Return []
  | x :: xs' =>
      rows ← body x;
      rest ← rows_of body xs';
      Py.Return (rows ++ rest)
  end.

(** [history[month] if month < len(history) else 0] *)
Definition entry_or_zero (history : list float) (month : nat)
  : Py.result Csv.cell :=
  if (month <? length history)%nat
  then x ← Py.getitem history month; Py.Return (Csv.Float x)
  else Py.Return (Csv.Int 0).

(** The body of the innermost loop of [export_to_csv]: the row of one
    household for one month, if its wealth history reaches that month. *)
Definition export_cube (month : nat) (cv : Circlverse.t)
    (cube : ClusterCube.t) : Py.result (list (list Csv.cell)) :=
  if (month <? length (ClusterCube.wealth_history cube))%nat then
    wealth ← Py.getitem (ClusterCube.wealth_history cube) month;
    income ← entry_or_zero (ClusterCube.income_history cube) month;
    expenses ← entry_or_zero (ClusterCube.expense_history cube) month;
    Py.Return
      [[Csv.Int (Z.of_nat month);
        Csv.Str (Circlverse.circlverse_id cv);
        Csv.Str (ClusterCube.cube_id cube);
        Csv.Float wealth; income; expenses;
        Csv.Int (ClusterCube.num_dots cube);
        Csv.Int (ClusterCube.num_dependents cube);
        Csv.Float (ClusterCube.location cube).1;
        Csv.Float (ClusterCube.location cube).2]]
  else Py.Return [].

(** [export_to_csv]: the rows written, the header first.  (Opening the file
    is not modelled.) *)
Definition export_to_csv (self : CircleverseSimulation.t)
  : Py.result (list (list Csv.cell)) :=
  data ←
    rows_of
      (fun month =>
         rows_of
           (fun cv =>
              rows_of (export_cube month cv) (Circlverse.cluster_cubes cv))
           (CircleverseSimulation.circlverses self))
      (seq 0 (Z.to_nat (CircleverseSimulation.current_month self)));
  Py.Return (export_header :: data).

(** ** Parallel histories *)

(** The three histories of a household have one length. *)
Definition parallel (cube : ClusterCube.t) : Prop :=
  length (ClusterCube.wealth_history cube)
  = length (ClusterCube.income_history cube) /\
  length (ClusterCube.income_history cube)
  = length (ClusterCube.expense_history cube).

(** A command brings in households with parallel histories only. *)
Definition brings_parallel (c : Session.command) : Prop :=
  match c with
  | Session.AddCirclverse cv => Forall parallel (Circlverse.cluster_cubes cv)
  | Session.AddClusterCube _ cube _ => parallel cube
  | _ => True
  end.

(** * Properties *)

(** ** Facts on float comparison *)

Section FloatOrder.

(** Comparing in the other direction gives the opposite answer. *)
Lemma SFcompare_antisym (a b : spec_float) (c : comparison) :
  SFcompare a b = Some c -> SFcompare b a = Some (CompOpp c).
Proof.
  destruct a as [sa|sa| |sa ma ea], b as [sb|sb| |sb mb eb]; cbn;
    try discriminate;
    try (destruct sa; try destruct sb; intros [= <-]; reflexivity);
    try (destruct sb; intros [= <-]; reflexivity).
  assert (Hm : Pos.compare_cont Eq mb ma
               = CompOpp (Pos.compare_cont Eq ma mb)).
  { rewrite (Pos.compare_cont_antisym ma mb Eq). reflexivity. }
  destruct sa, sb; intros [= <-]; try reflexivity;
    rewrite (Z.compare_antisym ea eb), Hm;
    destruct (ea ?= eb); cbn; reflexivity.
Qed.

(** Two floats other than NaN are comparable. *)
Lemma SFcompare_not_nan (a b : spec_float) :
  a <> S754_nan -> b <> S754_nan -> exists c, SFcompare a b = Some c.
Proof.
  destruct a, b; cbn; intros Ha Hb; try congruence; eauto.
Qed.

(** No float is below itself. *)
Lemma SFltb_irrefl (x : spec_float) : SFltb x x = false.
Proof.
  unfold SFltb. destruct x as [s|s| |s m e]; cbn; try reflexivity.
  - destruct s; reflexivity.
  - destruct s; rewrite Z.compare_refl, Pos.compare_cont_refl; reflexivity.
Qed.

Lemma is_nan_false (x : float) :
  is_nan x = false -> Prim2SF x <> S754_nan.
Proof.
  unfold is_nan. rewrite FloatAxioms.eqb_spec. unfold SFeqb. intros H Hn.
  rewrite Hn in H. discriminate.
Qed.

Lemma ltb_leb (x y : float) :
  (x <? y)%float = true -> (x <=? y)%float = true.
Proof.
  rewrite FloatAxioms.ltb_spec, FloatAxioms.leb_spec. unfold SFltb, SFleb.
  destruct (SFcompare (Prim2SF x) (Prim2SF y)) as [[| |]|]; congruence.
Qed.

Lemma not_ltb_leb (x y : float) :
  is_nan x = false -> is_nan y = false ->
  (y <? x)%float = false -> (x <=? y)%float = true.
Proof.
  intros Hx%is_nan_false Hy%is_nan_false.
  rewrite FloatAxioms.ltb_spec, FloatAxioms.leb_spec. unfold SFltb, SFleb.
  destruct (SFcompare_not_nan _ _ Hy Hx) as [c Hc].
  rewrite Hc, (SFcompare_antisym _ _ _ Hc).
  destruct c; cbn; congruence.
Qed.

End FloatOrder.

(** ** Rounding in binary64 *)

Section Rounding.

(** The exponent function of binary64. *)
Lemma fexp_binary64 (e : Z) : fexp prec emax e = Z.max (e - 53) (-1074).
Proof. reflexivity. Qed.

Lemma fexp_monotone (a b : Z) :
  a <= b -> fexp prec emax a <= fexp prec emax b.
Proof. rewrite !fexp_binary64. lia. Qed.

(** [digits2_pos p] is the number of binary digits of [p]. *)
Lemma digits2_pos_bounds (p : positive) :
  2 ^ (Z.pos (digits2_pos p) - 1) <= Z.pos p < 2 ^ Z.pos (digits2_pos p).
Proof.
  induction p as [p IH|p IH|]; cbn [digits2_pos]; [| | cbn; lia];
    rewrite Pos2Z.inj_succ;
    replace (Z.succ (Z.pos (digits2_pos p)) - 1)
      with (Z.succ (Z.pos (digits2_pos p) - 1)) by lia;
    rewrite !Z.pow_succ_r by lia; lia.
Qed.

(** A number below [2^d] has at most [d] digits. *)
Lemma digits2_pos_below (p : positive) (d : Z) :
  Z.pos p < 2 ^ d -> Z.pos (digits2_pos p) <= d.
Proof.
  intros Hp.
  destruct (Z_le_gt_dec (Z.pos (digits2_pos p)) d) as [Hle|Hgt];
    [exact Hle | exfalso].
  pose proof (digits2_pos_bounds p) as [Hlo _].
  destruct (Z_lt_le_dec d 0) as [Hd|Hd].
  - rewrite Z.pow_neg_r in Hp by exact Hd. lia.
  - assert (2 ^ d <= 2 ^ (Z.pos (digits2_pos p) - 1))
      by (apply Z.pow_le_mono_r; lia).
    lia.
Qed.

Lemma iter_xO_value (d p : positive) :
  Z.pos (Pos.iter xO p d) = Z.pos p * 2 ^ Z.pos d.
Proof.
  induction d as [|d IH] using Pos.peano_ind.
  - cbn. lia.
  - rewrite Pos.iter_succ, Pos2Z.inj_xO, IH, Pos2Z.inj_succ, Z.pow_succ_r
      by lia. lia.
Qed.

(** [shl_align] towards a lower exponent keeps the value [m * 2^e]. *)
Lemma shl_align_down (m : positive) (e e' : Z) :
  e' <= e ->
  Z.pos (fst (shl_align m e e')) = Z.pos m * 2 ^ (e - e') /\
  snd (shl_align m e e') = e'.
Proof.
  intros He. unfold shl_align.
  destruct (e' - e) as [|d|d] eqn:Hd; cbn [fst snd]; [| lia |].
  - replace (e - e') with 0 by lia. lia.
  - rewrite iter_xO_value. replace (e - e') with (Z.pos d) by lia. lia.
Qed.

(** [shl_align] towards a higher exponent does nothing. *)
Lemma shl_align_up (m : positive) (e e' : Z) :
  e <= e' -> shl_align m e e' = (m, e).
Proof.
  intros He. unfold shl_align.
  destruct (e' - e) as [|d|d] eqn:Hd; [reflexivity | reflexivity | lia].
Qed.

(** One right shift halves the mantissa. *)
Lemma shr_1_m (r : shr_record) :
  0 <= shr_m r -> shr_m (shr_1 r) = shr_m r / 2.
Proof.
  destruct r as [m b s]. cbn [shr_m]. intros Hm. unfold shr_1.
  destruct m as [|[p|p|]|p]; cbn [shr_m]; try reflexivity; try lia.
  - apply Z.div_unique with 1; lia.
  - apply Z.div_unique with 0; lia.
Qed.

Lemma iter_shr_1_m (p : positive) :
  forall r : shr_record,
    0 <= shr_m r ->
    shr_m (SpecFloat.iter_pos shr_1 p r) = shr_m r / 2 ^ Z.pos p.
Proof.
  induction p as [p IH|p IH|]; intros r Hr; cbn [SpecFloat.iter_pos].
  - assert (H1 : 0 <= shr_m (shr_1 r))
      by (rewrite shr_1_m by exact Hr; apply Z.div_pos; lia).
    assert (H2 : 0 <= shr_m (SpecFloat.iter_pos shr_1 p (shr_1 r)))
      by (rewrite IH by exact H1; apply Z.div_pos; lia).
    rewrite IH, IH, shr_1_m by assumption.
    rewrite !Z.div_div by lia.
    f_equal. replace (Z.pos p~1) with (1 + Z.pos p + Z.pos p) by lia.
    rewrite !Z.pow_add_r by lia. change (2 ^ 1) with 2. lia.
  - assert (H2 : 0 <= shr_m (SpecFloat.iter_pos shr_1 p r))
      by (rewrite IH by exact Hr; apply Z.div_pos; lia).
    rewrite IH, IH by assumption.
    rewrite !Z.div_div by lia.
    f_equal. replace (Z.pos p~0) with (Z.pos p + Z.pos p) by lia.
    rewrite Z.pow_add_r by lia. reflexivity.
  - apply shr_1_m. exact Hr.
Qed.

(** A shift by [n] places divides the mantissa by [2^n] and moves the
    exponent to [max e (e + n)]. *)
Lemma shr_m_e (r : shr_record) (e n : Z) :
  0 <= shr_m r ->
  shr_m (fst (shr r e n)) = shr_m r / 2 ^ Z.max 0 n /\
  snd (shr r e n) = e + Z.max 0 n.
Proof.
  intros Hr. unfold shr. destruct n as [|p|p]; cbn [fst snd].
  - cbn. rewrite Z.div_1_r. lia.
  - rewrite iter_shr_1_m by exact Hr.
    replace (Z.max 0 (Z.pos p)) with (Z.pos p) by lia. lia.
  - replace (Z.max 0 (Z.neg p)) with 0 by lia.
    cbn. rewrite Z.div_1_r. lia.
Qed.

Lemma shr_record_of_loc_m (m : Z) (l : location) :
  shr_m (shr_record_of_loc m l) = m.
Proof. destruct l as [|[| |]]; reflexivity. Qed.

(** Rounding to nearest keeps the mantissa or adds one. *)
Lemma round_nearest_even_bounds (m : Z) (l : location) :
  m <= round_nearest_even m l <= m + 1.
Proof.
  unfold round_nearest_even.
  destruct l as [|[| |]]; try destruct (Z.even m); lia.
Qed.

(** The two steps of [binary_round_aux]: a shift to the exponent of the
    format, a rounding [m2] of the shifted mantissa, and a second shift that
    absorbs a carry. *)
Lemma binary_round_aux_steps (s : bool) (m : positive) (e : Z) (l : location) :
  exists m2 : Z,
    let n1 := Z.max 0 (fexp prec emax (Z.pos (digits2_pos m) + e) - e) in
    let n2 := Z.max 0 (fexp prec emax (Zdigits2 m2 + (e + n1)) - (e + n1)) in
    Z.pos m / 2 ^ n1 <= m2 <= Z.pos m / 2 ^ n1 + 1 /\
    binary_round_aux prec emax s (Z.pos m) e l
    = match m2 / 2 ^ n2 with
      | Z0 => S754_zero s
      | Z.pos q =>
          if e + n1 + n2 <=? emax - prec then S754_finite s q (e + n1 + n2)
          else S754_infinity s
      | Z.neg _ => S754_nan
      end.
Proof.
  unfold binary_round_aux, shr_fexp. cbn [Zdigits2].
  set (n := fexp prec emax (Z.pos (digits2_pos m) + e) - e).
  pose proof (shr_m_e (shr_record_of_loc (Z.pos m) l) e n) as [Hm1 He1].
  { rewrite shr_record_of_loc_m. lia. }
  rewrite shr_record_of_loc_m in Hm1.
  destruct (shr (shr_record_of_loc (Z.pos m) l) e n) as [r1 e1].
  cbn [fst snd] in Hm1, He1.
  set (m2 := round_nearest_even (shr_m r1) (loc_of_shr_record r1)).
  pose proof (round_nearest_even_bounds (shr_m r1) (loc_of_shr_record r1))
    as Hm2. fold m2 in Hm2.
  assert (H0 : 0 <= m2).
  { rewrite Hm1 in Hm2. assert (0 <= Z.pos m / 2 ^ Z.max 0 n)
      by (apply Z.div_pos; [lia | apply Z.pow_pos_nonneg; lia]). lia. }
  set (n' := fexp prec emax (Zdigits2 m2 + e1) - e1).
  pose proof (shr_m_e (shr_record_of_loc m2 loc_Exact) e1 n') as [Hm3 He3].
  { exact H0. }
  destruct (shr (shr_record_of_loc m2 loc_Exact) e1 n') as [r2 e2].
  cbn [fst snd shr_record_of_loc shr_m] in Hm3, He3.
  exists m2. cbn zeta. subst e1. fold n'. subst e2.
  rewrite <- Hm1, <- Hm3. split; [exact Hm2 |].
  rewrite <- !Z.add_assoc. reflexivity.
Qed.

(** A canonical mantissa sits at the exponent of the format. *)
Lemma bounded_canonical (m : positive) (e : Z) :
  bounded prec emax m e = true ->
  fexp prec emax (Z.pos (digits2_pos m) + e) = e /\ e <= emax - prec.
Proof.
  unfold bounded, canonical_mantissa. intros [H1 H2]%andb_prop.
  split; [apply Z.eqb_eq, H1 | apply Z.leb_le, H2].
Qed.

Lemma pow2_div_pos (a n : Z) : 0 <= n -> 2 ^ n <= a -> 0 < a / 2 ^ n.
Proof.
  intros Hn Ha. apply Z.div_str_pos.
  split; [apply Z.pow_pos_nonneg; lia | exact Ha].
Qed.

(** A positive mantissa keeps a positive quotient when it is shifted to the
    exponent of the format. *)
Lemma shift_to_format_pos (m : positive) (e : Z) :
  -1074 <= e ->
  0 < Z.pos m
      / 2 ^ Z.max 0 (fexp prec emax (Z.pos (digits2_pos m) + e) - e).
Proof.
  intros He. pose proof (digits2_pos_bounds m) as [Hlo _].
  apply pow2_div_pos; [lia |].
  rewrite fexp_binary64.
  destruct (Z_le_gt_dec (Z.max (Z.pos (digits2_pos m) + e - 53) (-1074) - e) 0)
    as [Hn|Hn].
  - replace (Z.max 0 _) with 0 by lia. cbn. lia.
  - transitivity (2 ^ (Z.pos (digits2_pos m) - 1)); [| exact Hlo].
    apply Z.pow_le_mono_r; lia.
Qed.

(** Rounding a sum that is at least [mx * 2^ex] does not go below the
    positive number [(mx, ex)]. *)
Lemma round_at_least (m mx : positive) (e ex : Z) (l : location) :
  bounded prec emax mx ex = true ->
  -1074 <= e <= ex ->
  Z.pos mx * 2 ^ (ex - e) <= Z.pos m ->
  SFltb (binary_round_aux prec emax false (Z.pos m) e l)
        (S754_finite false mx ex) = false.
Proof.
  intros [Hcan Hmax]%bounded_canonical He Hval.
  destruct (binary_round_aux_steps false m e l) as (m2 & Hm2 & ->).
  cbn zeta in Hm2.
  set (n1 := Z.max 0 (fexp prec emax (Z.pos (digits2_pos m) + e) - e)) in *.
  set (n2 := Z.max 0 (fexp prec emax (Zdigits2 m2 + (e + n1)) - (e + n1))).
  pose proof (shift_to_format_pos m e ltac:(lia)) as Hm1. fold n1 in Hm1.
  assert (Hdig : Z.pos (digits2_pos mx) + ex <= Z.pos (digits2_pos m) + e).
  { pose proof (digits2_pos_bounds mx) as [Hlo _].
    assert (H2 : 2 ^ (Z.pos (digits2_pos mx) - 1 + (ex - e)) <= Z.pos m).
    { rewrite Z.pow_add_r by lia.
      transitivity (Z.pos mx * 2 ^ (ex - e)); [| exact Hval].
      apply Z.mul_le_mono_nonneg_r; [apply Z.pow_nonneg; lia | exact Hlo]. }
    destruct (Z_le_gt_dec (Z.pos (digits2_pos mx) + ex)
                (Z.pos (digits2_pos m) + e)) as [H|H]; [exact H | exfalso].
    pose proof (digits2_pos_bounds m) as [_ Hhi].
    assert (2 ^ Z.pos (digits2_pos m)
            <= 2 ^ (Z.pos (digits2_pos mx) - 1 + (ex - e)))
      by (apply Z.pow_le_mono_r; lia).
    lia. }
  assert (HE : ex <= e + n1).
  { pose proof (fexp_monotone _ _ Hdig) as H. rewrite Hcan in H.
    unfold n1. lia. }
  destruct m2 as [|q2|q2]; [lia | | lia].
  assert (Hm3 : 0 < Z.pos q2 / 2 ^ n2).
  { apply (shift_to_format_pos q2 (e + n1)). lia. }
  destruct (Z.pos q2 / 2 ^ n2) as [|q|q] eqn:Hq; [lia | | lia].
  destruct (e + n1 + n2 <=? emax - prec); [| reflexivity].
  unfold SFltb, SFcompare.
  destruct (Z.compare_spec (e + n1 + n2) ex) as [Heq|Hlt|Hgt];
    [| unfold n2 in Hlt; lia | reflexivity].
  assert (Hn2 : n2 = 0) by (unfold n2 in *; lia).
  assert (Hn1 : n1 = ex - e) by lia.
  rewrite Hn2, Z.div_1_r in Hq.
  assert (Z.pos mx <= Z.pos m / 2 ^ n1).
  { rewrite Hn1. apply Z.div_le_lower_bound;
      [apply Z.pow_pos_nonneg; lia | lia]. }
  change (Pos.compare_cont Eq q mx) with (Pos.compare q mx).
  destruct (Pos.compare_spec q mx); [reflexivity | lia | reflexivity].
Qed.

(** Rounding a difference that is below [mx * 2^ex] in magnitude does not go
    below the negative number [(mx, ex)]. *)
Lemma round_at_most (v mx : positive) (e ex : Z) (l : location) :
  bounded prec emax mx ex = true ->
  e <= ex ->
  Z.pos v < Z.pos mx * 2 ^ (ex - e) ->
  SFltb (binary_round_aux prec emax true (Z.pos v) e l)
        (S754_finite true mx ex) = false.
Proof.
  intros [Hcan Hmax]%bounded_canonical He Hval.
  destruct (binary_round_aux_steps true v e l) as (m2 & Hm2 & ->).
  cbn zeta in Hm2.
  set (n1 := Z.max 0 (fexp prec emax (Z.pos (digits2_pos v) + e) - e)) in *.
  set (n2 := Z.max 0 (fexp prec emax (Zdigits2 m2 + (e + n1)) - (e + n1))).
  pose proof (digits2_pos_bounds mx) as [_ Hhi].
  (* The exponent after the first shift is at most [ex]. *)
  assert (HE : e + n1 <= ex).
  { assert (Hd : Z.pos (digits2_pos v) <= Z.pos (digits2_pos mx) + (ex - e)).
    { apply digits2_pos_below. rewrite Z.pow_add_r by lia.
      assert (Z.pos mx * 2 ^ (ex - e)
              < 2 ^ Z.pos (digits2_pos mx) * 2 ^ (ex - e))
        by (apply Z.mul_lt_mono_pos_r; [apply Z.pow_pos_nonneg; lia | lia]).
      lia. }
    pose proof (fexp_monotone (Z.pos (digits2_pos v) + e)
                  (Z.pos (digits2_pos mx) + ex) ltac:(lia)) as H.
    rewrite Hcan in H. unfold n1. lia. }
  (* The rounded mantissa is at most [mx] seen at that exponent. *)
  assert (Hb : m2 <= Z.pos mx * 2 ^ (ex - (e + n1))).
  { assert (Z.pos v / 2 ^ n1 < Z.pos mx * 2 ^ (ex - (e + n1))).
    { apply Z.div_lt_upper_bound; [apply Z.pow_pos_nonneg; lia |].
      rewrite Z.mul_comm, <- Z.mul_assoc, <- Z.pow_add_r by lia.
      replace (ex - (e + n1) + n1) with (ex - e) by lia. exact Hval. }
    lia. }
  assert (H0 : 0 <= Z.pos v / 2 ^ n1)
    by (apply Z.div_pos; [lia | apply Z.pow_pos_nonneg; lia]).
  destruct m2 as [|q2|q2]; [reflexivity | | lia].
  assert (HE2 : e + n1 + n2 <= ex).
  { assert (Hd : Z.pos (digits2_pos q2)
                 <= Z.pos (digits2_pos mx) + (ex - (e + n1))).
    { apply digits2_pos_below. rewrite Z.pow_add_r by lia.
      assert (Z.pos mx * 2 ^ (ex - (e + n1))
              < 2 ^ Z.pos (digits2_pos mx) * 2 ^ (ex - (e + n1)))
        by (apply Z.mul_lt_mono_pos_r; [apply Z.pow_pos_nonneg; lia | lia]).
      lia. }
    pose proof (fexp_monotone (Z.pos (digits2_pos q2) + (e + n1))
                  (Z.pos (digits2_pos mx) + ex) ltac:(lia)) as H.
    rewrite Hcan in H. unfold n2. cbn [Zdigits2]. lia. }
  destruct (Z.pos q2 / 2 ^ n2) as [|q|q] eqn:Hq; [reflexivity | | reflexivity].
  replace (e + n1 + n2 <=? emax - prec) with true
    by (symmetry; apply Z.leb_le; lia).
  unfold SFltb, SFcompare.
  destruct (Z.compare_spec (e + n1 + n2) ex) as [Heq|Hlt|Hgt];
    [| reflexivity | lia].
  assert (Z.pos q <= Z.pos mx).
  { rewrite <- Hq. replace n2 with (ex - (e + n1)) by lia.
    apply Z.div_le_upper_bound; [apply Z.pow_pos_nonneg; lia | lia]. }
  change (Pos.compare_cont Eq q mx) with (Pos.compare q mx).
  destruct (Pos.compare_spec q mx); [reflexivity | reflexivity | lia].
Qed.

(** A rounded positive number is not below a negative one. *)
Lemma round_positive_above_negative (m mx : positive) (e ex : Z)
    (l : location) :
  SFltb (binary_round_aux prec emax false (Z.pos m) e l)
        (S754_finite true mx ex) = false.
Proof.
  destruct (binary_round_aux_steps false m e l) as (m2 & _ & ->).
  cbn zeta.
  destruct (m2 / 2 ^ _) as [|q|q]; [reflexivity | | reflexivity].
  destruct (_ <=? _); reflexivity.
Qed.

Lemma binary_round_at_least (m mx : positive) (e ex : Z) :
  bounded prec emax mx ex = true ->
  -1074 <= e <= ex ->
  Z.pos mx * 2 ^ (ex - e) <= Z.pos m ->
  SFltb (binary_round prec emax false m e) (S754_finite false mx ex) = false.
Proof.
  intros Hb He Hval. unfold binary_round.
  pose proof (fexp_binary64 (Z.pos (digits2_pos m) + e)) as Hf.
  set (f := fexp prec emax (Z.pos (digits2_pos m) + e)) in *.
  destruct (Z_le_gt_dec e f) as [Hup|Hdown].
  - rewrite shl_align_up by exact Hup.
    apply round_at_least; assumption.
  - pose proof (shl_align_down m e f ltac:(lia)) as [Hv Hs].
    destruct (shl_align m e f) as [mz ez]. cbn [fst snd] in Hv, Hs.
    apply round_at_least; [exact Hb | lia |].
    rewrite Hv. subst ez.
    transitivity (Z.pos mx * 2 ^ (ex - e) * 2 ^ (e - f)).
    + rewrite <- Z.mul_assoc, <- Z.pow_add_r by lia.
      apply Z.eq_le_incl. do 2 f_equal. lia.
    + apply Z.mul_le_mono_nonneg_r; [apply Z.pow_nonneg; lia | exact Hval].
Qed.

Lemma binary_round_at_most (v mx : positive) (e ex : Z) :
  bounded prec emax mx ex = true ->
  e <= ex ->
  Z.pos v < Z.pos mx * 2 ^ (ex - e) ->
  SFltb (binary_round prec emax true v e) (S754_finite true mx ex) = false.
Proof.
  intros Hb He Hval. unfold binary_round.
  set (f := fexp prec emax (Z.pos (digits2_pos v) + e)).
  destruct (Z_le_gt_dec e f) as [Hup|Hdown].
  - rewrite shl_align_up by exact Hup.
    apply round_at_most; assumption.
  - pose proof (shl_align_down v e f ltac:(lia)) as [Hv Hs].
    destruct (shl_align v e f) as [mz ez]. cbn [fst snd] in Hv, Hs.
    apply round_at_most; [exact Hb | lia |].
    rewrite Hv. subst ez.
    replace (ex - f) with (ex - e + (e - f)) by lia.
    rewrite Z.pow_add_r, Z.mul_assoc by lia.
    apply Z.mul_lt_mono_pos_r; [apply Z.pow_pos_nonneg; lia | exact Hval].
Qed.

Lemma binary_round_positive_above_negative (m mx : positive) (e ex : Z) :
  SFltb (binary_round prec emax false m e) (S754_finite true mx ex) = false.
Proof.
  unfold binary_round. destruct (shl_align m e _) as [mz ez].
  apply round_positive_above_negative.
Qed.

(** Adding a float that is not negative does not give a smaller float. *)
Lemma SFadd_nonneg_not_below (x y : spec_float) :
  valid_binary x = true -> valid_binary y = true -> SF_nonneg y ->
  SFltb (SF64add x y) x = false.
Proof.
  intros Hx Hy Hs. unfold SF64add.
  destruct y as [sy|sy| |sy my ey]; cbn in Hs; try subst sy.
  - destruct x as [sx|sx| |sx mx ex]; cbn [SFadd].
    + destruct sx, sy; reflexivity.
    + apply SFltb_irrefl.
    + reflexivity.
    + apply SFltb_irrefl.
  - destruct x as [sx|sx| |sx mx ex]; cbn [SFadd]; try reflexivity.
    destruct sx; reflexivity.
  - destruct x; reflexivity.
  - destruct x as [sx|sx| |sx mx ex]; cbn [SFadd]; try reflexivity.
    + apply SFltb_irrefl.
    + cbn [valid_binary] in Hx, Hy.
      pose proof (bounded_canonical _ _ Hx) as [Hcx _].
      pose proof (bounded_canonical _ _ Hy) as [Hcy _].
      rewrite fexp_binary64 in Hcx, Hcy.
      set (ez := Z.min ex ey).
      pose proof (shl_align_down mx ex ez ltac:(lia)) as [Ha _].
      pose proof (shl_align_down my ey ez ltac:(lia)) as [Hb _].
      set (a := fst (shl_align mx ex ez)) in *.
      set (b := fst (shl_align my ey ez)) in *.
      destruct sx; cbn [cond_Zopp].
      * destruct (- Z.pos a + Z.pos b) as [|s|v] eqn:Hsum;
          cbn [binary_normalize].
        -- reflexivity.
        -- apply binary_round_positive_above_negative.
        -- apply binary_round_at_most; [exact Hx | lia | lia].
      * change (Z.pos a + Z.pos b) with (Z.pos (a + b)).
        cbn [binary_normalize].
        apply binary_round_at_least; [exact Hx | lia | lia].
Qed.

(** The product of a positive float and one that is not negative is not
    negative. *)
Lemma SFmul_nonneg (x y : spec_float) :
  SFltb (S754_zero false) x = true ->
  SFleb (S754_zero false) y = true ->
  SF_nonneg (SF64mul x y).
Proof.
  intros Hx Hy. unfold SF64mul.
  destruct x as [sx|sx| |sx mx ex]; try discriminate;
    destruct sx; try discriminate;
    destruct y as [sy|sy| |sy my ey]; try discriminate;
    try (destruct sy; try discriminate); cbn [SFmul xorb SF_nonneg];
    try reflexivity; try exact I.
  destruct (binary_round_aux_steps false (mx * my) (ex + ey) loc_Exact)
    as (m2 & _ & ->).
  cbn zeta. destruct (m2 / 2 ^ _) as [|q|q]; [exact I | | exact I].
  destruct (_ <=? _); reflexivity.
Qed.

End Rounding.

(** ** Facts on float addition and multiplication *)

Section PrimitiveFloats.

(** On primitive floats: adding [s] with [0 <= s] (after a product of a
    positive and a non-negative factor, say) never gives less. *)
Lemma add_nonneg_not_below (w s : float) :
  SF_nonneg (Prim2SF s) -> (w + s <? w)%float = false.
Proof.
  intros Hs. rewrite FloatAxioms.ltb_spec, add_spec.
  apply SFadd_nonneg_not_below; [apply Prim2SF_valid | apply Prim2SF_valid |].
  exact Hs.
Qed.

Lemma mul_nonneg (x y : float) :
  (0 <? x)%float = true -> (0 <=? y)%float = true ->
  SF_nonneg (Prim2SF (x * y)).
Proof.
  rewrite FloatAxioms.ltb_spec, FloatAxioms.leb_spec, mul_spec.
  apply SFmul_nonneg.
Qed.

(** Adding [0] keeps a float, except that it turns [-0.0] into [0.0]. *)
Lemma add_zero (w : float) :
  (w + 0)%float = w \/ (w + 0 =? w)%float = true.
Proof.
  destruct (Prim2SF w) as [s|s| |s m e] eqn:Hw.
  - destruct s.
    + right. rewrite FloatAxioms.eqb_spec, add_spec, Hw. reflexivity.
    + left. apply Prim2SF_inj. rewrite add_spec, Hw. reflexivity.
  - left. apply Prim2SF_inj. rewrite add_spec, Hw. reflexivity.
  - left. apply Prim2SF_inj. rewrite add_spec, Hw. reflexivity.
  - left. apply Prim2SF_inj. rewrite add_spec, Hw. reflexivity.
Qed.

End PrimitiveFloats.

(** ** Sorting *)

Section Sorting.

Lemma insert_length (x : float) (l : list float) :
  length (Py.insert x l) = S (length l).
Proof.
  induction l as [|y l IH]; cbn; [reflexivity |].
  destruct (y <? x)%float; cbn; [rewrite IH |]; reflexivity.
Qed.

Lemma sorted_cons (x : float) (l : list float) :
  Py.sorted (x :: l) = Py.insert x (Py.sorted l).
Proof. reflexivity. Qed.

Lemma sorted_length (l : list float) : length (Py.sorted l) = length l.
Proof.
  induction l as [|x l IH]; [reflexivity |].
  rewrite sorted_cons, insert_length, IH. reflexivity.
Qed.

Lemma insert_permutation (x : float) (l : list float) :
  Py.insert x l ≡ₚ x :: l.
Proof.
  induction l as [|y l IH]; cbn; [reflexivity |].
  destruct (y <? x)%float; [| reflexivity].
  rewrite IH. apply Permutation_swap.
Qed.

Lemma sorted_permutation (l : list float) : Py.sorted l ≡ₚ l.
Proof.
  induction l as [|x l IH]; [reflexivity |].
  rewrite sorted_cons, insert_permutation, IH. reflexivity.
Qed.

Lemma insert_HdRel (a x : float) (l : list float) :
  float_le a x -> HdRel float_le a l -> HdRel float_le a (Py.insert x l).
Proof.
  intros Hax Hal. destruct l as [|y l]; cbn.
  - constructor. exact Hax.
  - destruct (y <? x)%float; constructor; [| exact Hax].
    inversion Hal; assumption.
Qed.

Lemma insert_sorted (x : float) (l : list float) :
  is_nan x = false -> Forall (fun y => is_nan y = false) l ->
  Sorted float_le l -> Sorted float_le (Py.insert x l).
Proof.
  intros Hx Hl Hs. induction Hs as [|y l Hs IH Hhd]; cbn.
  - repeat constructor.
  - inversion Hl as [|? ? Hy Hl']; subst.
    destruct (y <? x)%float eqn:Hyx.
    + constructor; [apply IH; exact Hl' |].
      apply insert_HdRel; [apply ltb_leb; exact Hyx | exact Hhd].
    + constructor; [constructor; assumption |].
      constructor. apply not_ltb_leb; assumption.
Qed.

Lemma sorted_sorted (l : list float) :
  Forall (fun y => is_nan y = false) l -> Sorted float_le (Py.sorted l).
Proof.
  induction 1 as [|x l Hx Hl IH]; [constructor |].
  rewrite sorted_cons. apply insert_sorted; [exact Hx | | exact IH].
  rewrite sorted_permutation. exact Hl.
Qed.

End Sorting.

(** ** The monthly update of a household *)

(** C1.  The scenario household has expense baseline 3600; one month at
    cost-of-living index 1.0 and economic multiplier 1.0 with expense
    variation 0 gives income 9600, expenses 3600, net income 6000, savings
    1200 and wealth 1200, both in the returned dictionary and in the
    household, whose three histories each hold that month's entry. *)
Theorem scenario_first_month (cube_id : string)
    (draws : nat -> Z * OccupationType) :
  let h := scenario_household cube_id draws in
  let r := ClusterCube.simulate_month h 1.0%float 1.0%float 0%float in
  ClusterCube.monthly_expenses h = 3600%float /\
  r.2 !! "income"%string = Some 9600%float /\
  r.2 !! "expenses"%string = Some 3600%float /\
  r.2 !! "net_income"%string = Some 6000%float /\
  r.2 !! "savings"%string = Some 1200%float /\
  r.2 !! "wealth"%string = Some 1200%float /\
  ClusterCube.current_wealth r.1 = 1200%float /\
  ClusterCube.wealth_history r.1 = [1200%float] /\
  ClusterCube.income_history r.1 = [9600%float] /\
  ClusterCube.expense_history r.1 = [3600%float].
Proof.
  repeat split; vm_compute; reflexivity.
Qed.

(** C2.  Whatever the household, the two indices and the random draw,
    [simulate_month] appends exactly one entry to each of the three
    histories and leaves the entries already there as they are: the new
    wealth (the ["wealth"] of the returned dictionary) to the wealth
    history, the ["income"] of the dictionary to the income history and its
    ["expenses"] to the expense history.  So each history is exactly one
    entry longer, and histories of equal lengths stay of equal lengths. *)
Theorem simulate_month_appends_one (h : ClusterCube.t)
    (cost_of_living_index economic_multiplier variation : float) :
  let r :=
    ClusterCube.simulate_month h cost_of_living_index economic_multiplier
      variation in
  let h' := r.1 in
  (exists income expenses : float,
     r.2 !! "wealth"%string = Some (ClusterCube.current_wealth h') /\
     r.2 !! "income"%string = Some income /\
     r.2 !! "expenses"%string = Some expenses /\
     ClusterCube.wealth_history h'
     = ClusterCube.wealth_history h ++ [ClusterCube.current_wealth h'] /\
     ClusterCube.income_history h'
     = ClusterCube.income_history h ++ [income] /\
     ClusterCube.expense_history h'
     = ClusterCube.expense_history h ++ [expenses]) /\
  length (ClusterCube.wealth_history h')
    = S (length (ClusterCube.wealth_history h)) /\
  length (ClusterCube.income_history h')
    = S (length (ClusterCube.income_history h)) /\
  length (ClusterCube.expense_history h')
    = S (length (ClusterCube.expense_history h)) /\
  (length (ClusterCube.wealth_history h)
     = length (ClusterCube.income_history h) ->
   length (ClusterCube.income_history h)
     = length (ClusterCube.expense_history h) ->
   length (ClusterCube.wealth_history h')
     = length (ClusterCube.income_history h') /\
   length (ClusterCube.income_history h')
     = length (ClusterCube.expense_history h')).
Proof.
  cbn zeta. split.
  - unfold ClusterCube.simulate_month.
    cbn [fst snd ClusterCube.wealth_history ClusterCube.income_history
           ClusterCube.expense_history ClusterCube.current_wealth].
    eexists. eexists.
    split; [reflexivity |]. split; [reflexivity |]. split; [reflexivity |].
    repeat split.
  - cbn -[PrimFloat.add PrimFloat.mul PrimFloat.sub PrimFloat.ltb].
    rewrite !length_app. cbn. lia.
Qed.

(** The scenario household, whose histories start empty, after one month. *)
Lemma simulate_month_appends_one_sample :
  let h := scenario_household "home" (fun _ => (30, SERVICE)) in
  let h' := (ClusterCube.simulate_month h 1.0%float 1.0%float 0%float).1 in
  (length (ClusterCube.wealth_history h)
     = length (ClusterCube.income_history h) /\
   length (ClusterCube.income_history h)
     = length (ClusterCube.expense_history h)) /\
  length (ClusterCube.wealth_history h')
    = length (ClusterCube.income_history h') /\
  length (ClusterCube.income_history h')
    = length (ClusterCube.expense_history h').
Proof.
  split; [split; reflexivity |].
  apply (simulate_month_appends_one
           (scenario_household "home" (fun _ => (30, SERVICE)))
           1.0%float 1.0%float 0%float); reflexivity.
Defined.

(** ** Savings *)

Section Savings.

Lemma leb_not_ltb (x y : float) :
  (x <=? y)%float = true -> (y <? x)%float = false.
Proof.
  rewrite FloatAxioms.ltb_spec, FloatAxioms.leb_spec. unfold SFltb, SFleb.
  destruct (SFcompare (Prim2SF x) (Prim2SF y)) as [c|] eqn:Hc;
    [| discriminate].
  rewrite (SFcompare_antisym _ _ _ Hc). destruct c; cbn; congruence.
Qed.

Lemma same_number_not_below (x y : float) :
  same_number x y -> (x <? y)%float = false.
Proof.
  intros [-> | He].
  - rewrite FloatAxioms.ltb_spec. apply SFltb_irrefl.
  - revert He. rewrite FloatAxioms.ltb_spec, FloatAxioms.eqb_spec.
    unfold SFltb, SFeqb.
    destruct (SFcompare (Prim2SF x) (Prim2SF y)) as [[| |]|]; congruence.
Qed.

End Savings.

(** C6.  Let [net] be the net income that [simulate_month] computes (income
    minus varied expenses, as the returned dictionary reports it).  If
    [net <= 0] the wealth after the call is the same number as before; if
    [net > 0] it is the wealth before plus [net * savings_rate]; and with
    [savings_rate >= 0] the wealth after the call is never below the wealth
    before. *)
Theorem simulate_month_never_dissaves (h : ClusterCube.t)
    (cost_of_living_index economic_multiplier variation : float) :
  let r :=
    ClusterCube.simulate_month h cost_of_living_index economic_multiplier
      variation in
  let net :=
    (ClusterCube.get_total_income h * economic_multiplier
     - ClusterCube.monthly_expenses h * cost_of_living_index
       * (1.0 + variation))%float in
  r.2 !! "net_income"%string = Some net /\
  ((net <=? 0)%float = true ->
   same_number (ClusterCube.current_wealth r.1)
     (ClusterCube.current_wealth h)) /\
  ((0 <? net)%float = true ->
   ClusterCube.current_wealth r.1
   = (ClusterCube.current_wealth h + net * ClusterCube.savings_rate h)%float)
  /\
  ((0 <=? ClusterCube.savings_rate h)%float = true ->
   (ClusterCube.current_wealth r.1 <? ClusterCube.current_wealth h)%float
   = false).
Proof.
  cbn zeta. unfold ClusterCube.simulate_month.
  cbn [fst snd ClusterCube.current_wealth].
  set (net := (ClusterCube.get_total_income h * economic_multiplier
               - ClusterCube.monthly_expenses h * cost_of_living_index
                 * (1.0 + variation))%float).
  split; [| split; [| split]].
  - rewrite !lookup_insert_ne by discriminate. apply lookup_insert_eq.
  - intros Hle. rewrite (leb_not_ltb _ _ Hle). apply add_zero.
  - intros Hlt. rewrite Hlt. reflexivity.
  - intros Hrate. destruct (0 <? net)%float eqn:Hnet.
    + apply add_nonneg_not_below, mul_nonneg; assumption.
    + apply same_number_not_below, add_zero.
Qed.

(** The scenario household saves in its first month: net income 6000 at
    savings rate 0.20. *)
Lemma simulate_month_never_dissaves_sample :
  let h := scenario_household "home" (fun _ => (30, SERVICE)) in
  let r := ClusterCube.simulate_month h 1.0%float 1.0%float 0%float in
  ((0 <? 6000)%float = true /\
   (0 <=? ClusterCube.savings_rate h)%float = true) /\
  ClusterCube.current_wealth r.1
  = (ClusterCube.current_wealth h + 6000 * ClusterCube.savings_rate h)%float
  /\
  (ClusterCube.current_wealth r.1 <? ClusterCube.current_wealth h)%float
  = false.
Proof.
  pose proof (simulate_month_never_dissaves
                (scenario_household "home" (fun _ => (30, SERVICE)))
                1.0%float 1.0%float 0%float) as (_ & _ & Hgain & Hkeep).
  split; [split; reflexivity |].
  split; [apply Hgain | apply Hkeep]; reflexivity.
Defined.

(** ** Economic shocks *)

Section Shocks.

Import ClusterCube.

(** [working_positions ds i] lists positions of employed members only. *)
Lemma working_positions_employed (ds : list Dot.t) :
  forall (i p : nat),
    p ∈ working_positions ds i ->
    (i <= p)%nat /\
    exists d, ds !! (p - i)%nat = Some d /\ employed d = true.
Proof.
  induction ds as [|d ds IH]; intros i p Hin; cbn in Hin.
  - inversion Hin.
  - destruct (employed d) eqn:Hd.
    + apply elem_of_cons in Hin as [-> | Hin].
      * split; [lia |]. exists d. rewrite Nat.sub_diag. auto.
      * destruct (IH _ _ Hin) as (Hle & d' & Hl & He).
        split; [lia |]. exists d'.
        replace (p - i)%nat with (S (p - S i)) by lia. auto.
    + destruct (IH _ _ Hin) as (Hle & d' & Hl & He).
      split; [lia |]. exists d'.
      replace (p - i)%nat with (S (p - S i)) by lia. auto.
Qed.

(** No position is listed exactly when no member is employed. *)
Lemma working_positions_nil (ds : list Dot.t) (i : nat) :
  working_positions ds i = [] <->
  Forall (fun d => employed d = false) ds.
Proof.
  revert i. induction ds as [|d ds IH]; intros i; cbn.
  - split; [constructor | reflexivity].
  - destruct (employed d) eqn:Hd.
    + split; [discriminate |]. intros HF. inversion HF; congruence.
    + rewrite IH. split.
      * intros HF. constructor; assumption.
      * intros HF. inversion HF; assumption.
Qed.

Lemma unemployed_all_or_employed_some (ds : list Dot.t) :
  Forall (fun d => employed d = false) ds ->
  Exists (fun d => employed d = true) ds -> False.
Proof.
  intros HF HE. induction HE as [d ds Hd | d ds _ IH];
    inversion HF; subst; [congruence | auto].
Qed.

End Shocks.

(** C7.  A [job_loss] shock, whatever index the random choice draws: if no
    member is both working and of an occupation other than unemployed, the
    household stays as it is; otherwise one such member, at some position
    [j], becomes unemployed and not working, and nothing else changes: the
    other members, the wealth, the three histories and the expense baseline
    are as before.  A shock of any kind other than [job_loss], [medical] and
    [windfall] returns the household as it is (the model has no failing
    step, so no exception is raised). *)
Theorem job_loss_and_unknown_shocks (h : ClusterCube.t) (magnitude : float)
    (choice : nat) :
  let h' := ClusterCube.apply_economic_shock h "job_loss" magnitude choice in
  (Forall (fun d => ClusterCube.employed d = false) (ClusterCube.dots h) ->
   h' = h) /\
  (Exists (fun d => ClusterCube.employed d = true) (ClusterCube.dots h) ->
   exists (j : nat) (d : Dot.t),
     ClusterCube.dots h !! j = Some d /\
     ClusterCube.employed d = true /\
     ClusterCube.dots h' !! j = Some (Dot.mk (Dot.age d) UNEMPLOYED false) /\
     (forall i : nat,
        i <> j -> ClusterCube.dots h' !! i = ClusterCube.dots h !! i) /\
     length (ClusterCube.dots h') = length (ClusterCube.dots h) /\
     ClusterCube.current_wealth h' = ClusterCube.current_wealth h /\
     ClusterCube.wealth_history h' = ClusterCube.wealth_history h /\
     ClusterCube.income_history h' = ClusterCube.income_history h /\
     ClusterCube.expense_history h' = ClusterCube.expense_history h /\
     ClusterCube.monthly_expenses h' = ClusterCube.monthly_expenses h /\
     h' = ClusterCube.set_dots h (ClusterCube.dots h')) /\
  (forall kind : string,
     kind <> "job_loss"%string ->
     kind <> "medical"%string ->
     kind <> "windfall"%string ->
     ClusterCube.apply_economic_shock h kind magnitude choice = h).
Proof.
  cbn zeta. unfold ClusterCube.apply_economic_shock.
  rewrite bool_decide_eq_true_2 by reflexivity.
  split; [| split].
  - intros HF. apply (working_positions_nil _ 0%nat) in HF.
    rewrite HF. reflexivity.
  - intros HE.
    destruct (ClusterCube.working_positions (ClusterCube.dots h) 0)
      as [|p ps] eqn:Hwp.
    + exfalso. apply (unemployed_all_or_employed_some (ClusterCube.dots h));
        [| exact HE].
      apply (working_positions_nil _ 0%nat). exact Hwp.
    + set (j := nth (choice mod length (p :: ps))%nat (p :: ps) p).
      assert (Hj : j ∈ ClusterCube.working_positions (ClusterCube.dots h) 0).
      { rewrite Hwp. apply nth_elem_of.
        apply Nat.mod_upper_bound. discriminate. }
      apply working_positions_employed in Hj as (_ & d & Hd & He).
      rewrite Nat.sub_0_r in Hd.
      clearbody j. exists j, d. cbn.
      rewrite list_lookup_alter_eq, Hd, length_alter.
      repeat split; try assumption.
      intros i Hi. apply list_lookup_alter_ne. congruence.
  - intros kind H1 H2 H3.
    rewrite !bool_decide_eq_false_2 by assumption. reflexivity.
Qed.

(** The scenario household has one employed member; a job loss reaches it,
    and a shock of an unknown kind does nothing. *)
Lemma job_loss_and_unknown_shocks_sample :
  let h := scenario_household "home" (fun _ => (30, SERVICE)) in
  let h' := ClusterCube.apply_economic_shock h "job_loss" 0%float 4 in
  Exists (fun d => ClusterCube.employed d = true) (ClusterCube.dots h) /\
  (exists (j : nat) (d : Dot.t),
     ClusterCube.dots h !! j = Some d /\
     ClusterCube.employed d = true /\
     ClusterCube.dots h' !! j = Some (Dot.mk (Dot.age d) UNEMPLOYED false) /\
     (forall i : nat,
        i <> j -> ClusterCube.dots h' !! i = ClusterCube.dots h !! i) /\
     length (ClusterCube.dots h') = length (ClusterCube.dots h) /\
     ClusterCube.current_wealth h' = ClusterCube.current_wealth h /\
     ClusterCube.wealth_history h' = ClusterCube.wealth_history h /\
     ClusterCube.income_history h' = ClusterCube.income_history h /\
     ClusterCube.expense_history h' = ClusterCube.expense_history h /\
     ClusterCube.monthly_expenses h' = ClusterCube.monthly_expenses h /\
     h' = ClusterCube.set_dots h (ClusterCube.dots h')) /\
  ClusterCube.apply_economic_shock h "earthquake" 0%float 4 = h.
Proof.
  pose proof (job_loss_and_unknown_shocks
                (scenario_household "home" (fun _ => (30, SERVICE)))
                0%float 4) as (_ & Hloss & Hother).
  assert (He : Exists (fun d => ClusterCube.employed d = true)
                 (ClusterCube.dots
                    (scenario_household "home" (fun _ => (30, SERVICE))))).
  { apply Exists_cons_hd. reflexivity. }
  split; [exact He | split].
  - exact (Hloss He).
  - apply Hother; discriminate.
Defined.

(** ** The Gini coefficient *)

Section Gini.

Import Circlverse.

(** The loop adds the terms of the formula in index order. *)
Lemma gini_loop_terms (n : Z) (ws : list float) :
  forall (i : nat) (cumsum : float),
    gini_loop ws (Z.of_nat i) n cumsum
    = fold_left PrimFloat.add
        (imap (fun k w =>
                 (w * Py.of_Z (2 * (Z.of_nat (i + k) + 1) - n - 1))%float) ws)
        cumsum.
Proof.
  induction ws as [|w ws IH]; intros i cumsum; [reflexivity |].
  cbn [gini_loop imap fold_left].
  replace (Z.of_nat i + 1) with (Z.of_nat (S i)) by lia.
  rewrite IH, Nat.add_0_r.
  replace (Z.of_nat (S i)) with (Z.of_nat i + 1) by lia.
  f_equal. apply imap_ext. intros k w' _. cbn.
  replace (i + S k)%nat with (S (i + k)) by lia. reflexivity.
Qed.

(** The coefficient depends on the community through its wealths only. *)
Lemma calculate_gini_coefficient_wealths (cv : t) :
  calculate_gini_coefficient cv
  = if Z.of_nat (length (wealths cv)) <? 2 then Py.Return 0.0%float
    else
      let w := Py.sorted (wealths cv) in
      if (Py.sum w =? 0)%float then Py.Return 0.0%float
      else Py.truediv (gini_loop w 0 (Z.of_nat (length w)) 0%float)
             (Py.of_Z (Z.of_nat (length w)) * Py.sum w)%float.
Proof.
  unfold calculate_gini_coefficient, wealths. rewrite length_map.
  destruct (cluster_cubes cv) as [|cube cubes]; reflexivity.
Qed.

End Gini.

(** C3, as the code has it.  With at least two households and a nonzero
    total, [calculate_gini_coefficient] is the formula
    [Σ w[i]·(2(i+1) − n − 1) / (n · Σw)] over the sorted wealths, every
    operation being a float operation and the terms added in index order.
    With fewer than two households, or a total equal to 0, it is 0.0.  For
    the wealths 100, 100, 100 it is 0.0, and for 0, 0, 100 it is 200/300. *)
Theorem gini_coefficient_formula (cv : Circlverse.t) :
  let w := Py.sorted (Circlverse.wealths cv) in
  ((2 <= length (Circlverse.cluster_cubes cv))%nat ->
   (Py.sum w =? 0)%float = false ->
   Circlverse.calculate_gini_coefficient cv = gini_formula w) /\
  ((length (Circlverse.cluster_cubes cv) < 2)%nat ->
   Circlverse.calculate_gini_coefficient cv = Py.Return 0.0%float) /\
  ((Py.sum w =? 0)%float = true ->
   Circlverse.calculate_gini_coefficient cv = Py.Return 0.0%float) /\
  (Circlverse.wealths cv = [100%float; 100%float; 100%float] ->
   Circlverse.calculate_gini_coefficient cv = Py.Return 0.0%float) /\
  (Circlverse.wealths cv = [0%float; 0%float; 100%float] ->
   Circlverse.calculate_gini_coefficient cv
   = Py.Return (200 / 300)%float).
Proof.
  cbn zeta. rewrite calculate_gini_coefficient_wealths.
  assert (Hlen : length (Circlverse.wealths cv)
                 = length (Circlverse.cluster_cubes cv))
    by apply length_map.
  rewrite Hlen.
  split; [| split; [| split; [| split]]].
  - intros Hn Hs.
    replace (Z.of_nat (length (Circlverse.cluster_cubes cv)) <? 2)
      with false by (symmetry; apply Z.ltb_ge; lia).
    cbn zeta. rewrite Hs. unfold gini_formula.
    rewrite (gini_loop_terms _ _ 0%nat). reflexivity.
  - intros Hn.
    replace (Z.of_nat (length (Circlverse.cluster_cubes cv)) <? 2)
      with true by (symmetry; apply Z.ltb_lt; lia).
    reflexivity.
  - intros Hs. cbn zeta. rewrite Hs.
    destruct (Z.of_nat (length (Circlverse.cluster_cubes cv)) <? 2);
      reflexivity.
  - intros Hw. rewrite <- Hlen, Hw. vm_compute. reflexivity.
  - intros Hw. rewrite <- Hlen, Hw. vm_compute. reflexivity.
Qed.

(** A community of three sample households with wealths 0, 0 and 100. *)
Lemma gini_coefficient_formula_sample :
  let cv := sample_circlverse [0%float; 0%float; 100%float] in
  Circlverse.wealths cv = [0%float; 0%float; 100%float] /\
  Circlverse.calculate_gini_coefficient cv = Py.Return (200 / 300)%float.
Proof.
  assert (Hw : Circlverse.wealths
                 (sample_circlverse [0%float; 0%float; 100%float])
               = [0%float; 0%float; 100%float]) by reflexivity.
  split; [exact Hw |].
  apply (proj2 (proj2 (proj2 (proj2
           (gini_coefficient_formula
              (sample_circlverse [0%float; 0%float; 100%float])))))).
  exact Hw.
Defined.

(** C3 as stated fails where it takes equal wealths to give 0.0.  For five
    households of wealth 0.1 the loop adds [-0.4], [-0.2], [0.0], [0.2] and
    [0.4]; the running value is [-0.4], [-0.6000000000000001] (rounded),
    [-0.6000000000000001], [-0.4000000000000001] and at last
    [-5.551115123125783e-17] instead of 0; divided by [5 * 0.5] this is the
    coefficient [-2.2204460492503132e-17]. *)
Lemma gini_of_equal_wealths_is_not_zero :
  let cv := sample_circlverse [0.1; 0.1; 0.1; 0.1; 0.1]%float in
  Circlverse.wealths cv = [0.1; 0.1; 0.1; 0.1; 0.1]%float /\
  Circlverse.gini_loop (Py.sorted (Circlverse.wealths cv)) 0 5 0%float
  = (-5.551115123125783e-17)%float /\
  Py.sum (Py.sorted (Circlverse.wealths cv)) = 0.5%float /\
  Circlverse.calculate_gini_coefficient cv
  = Py.Return (-2.2204460492503132e-17)%float /\
  (-2.2204460492503132e-17 =? 0)%float = false.
Proof.
  repeat split; vm_compute; reflexivity.
Qed.

(** ** Statistics queries *)

Section Queries.

Lemma flat_map_wealths_nil (cvs : list Circlverse.t) :
  Forall (fun cv => Circlverse.cluster_cubes cv = []) cvs ->
  flat_map Circlverse.wealths cvs = [].
Proof.
  induction 1 as [|cv cvs Hcv _ IH]; [reflexivity |].
  change (flat_map Circlverse.wealths (cv :: cvs))
    with (Circlverse.wealths cv ++ flat_map Circlverse.wealths cvs).
  rewrite IH. unfold Circlverse.wealths. rewrite Hcv. reflexivity.
Qed.

Lemma half_index (n : nat) : Z.to_nat (Z.of_nat n / 2) = (n / 2)%nat.
Proof.
  change 2 with (Z.of_nat 2). rewrite <- Nat2Z.inj_div. apply Nat2Z.id.
Qed.

Lemma get_wealth_distribution_returns (cv : Circlverse.t) :
  Circlverse.cluster_cubes cv <> [] ->
  exists (d : gmap string float) (median : float),
    Circlverse.get_wealth_distribution cv = Py.Return d /\
    Py.sorted (Circlverse.wealths cv)
      !! (length (Circlverse.cluster_cubes cv) / 2)%nat = Some median /\
    d !! "median"%string = Some median.
Proof.
  intros Hne. unfold Circlverse.get_wealth_distribution.
  destruct (Circlverse.cluster_cubes cv) as [|cube cubes] eqn:Hcubes;
    [congruence |].
  set (ws := Circlverse.wealths cv).
  assert (Hlen : length ws = S (length cubes)).
  { unfold ws, Circlverse.wealths. rewrite Hcubes, length_map. reflexivity. }
  destruct (lookup_lt_is_Some_2 (Py.sorted ws) (length ws / 2)%nat)
    as [median Hmed].
  { rewrite sorted_length, Hlen. apply Nat.div_lt; lia. }
  destruct ws as [|w ws'] eqn:Hws; [discriminate |].
  unfold Py.truediv_int, Py.getitem.
  rewrite half_index, Hmed.
  replace (Z.of_nat (length (w :: ws')) =? 0) with false
    by (symmetry; apply Z.eqb_neq; cbn [length]; lia).
  cbn [Py.min Py.max mbind result_bind Py.bind].
  eexists. exists median. split; [reflexivity |].
  split.
  - rewrite <- Hmed, Hlen. reflexivity.
  - rewrite !lookup_insert_ne by discriminate. apply lookup_insert_eq.
Qed.

Lemma get_global_statistics_returns (sim : CircleverseSimulation.t) :
  exists d : gmap string CircleverseSimulation.number,
    CircleverseSimulation.get_global_statistics sim = Py.Return d.
Proof.
  unfold CircleverseSimulation.get_global_statistics.
  destruct (CircleverseSimulation.all_wealths sim) as [|w ws];
    [eexists; reflexivity |].
  unfold Py.truediv_int.
  replace (Z.of_nat (length (w :: ws)) =? 0) with false
    by (symmetry; apply Z.eqb_neq; cbn [length]; lia).
  eexists. reflexivity.
Qed.

End Queries.

(** C9.  On a community without households [get_wealth_distribution]
    returns the empty dictionary, and so does [get_global_statistics] on a
    simulation whose communities (if any) have no households.  In every
    state both queries return a dictionary: no division by zero, no other
    exception.  For a community with households the ["median"] entry is the
    element at index [n // 2] of the sorted wealths, which are the wealths
    rearranged and, as long as none is NaN, in ascending order. *)
Theorem queries_never_raise (cv : Circlverse.t)
    (sim : CircleverseSimulation.t) :
  (Circlverse.cluster_cubes cv = [] ->
   Circlverse.get_wealth_distribution cv = Py.Return ∅) /\
  (Forall (fun cv => Circlverse.cluster_cubes cv = [])
     (CircleverseSimulation.circlverses sim) ->
   CircleverseSimulation.get_global_statistics sim = Py.Return ∅) /\
  (exists d, Circlverse.get_wealth_distribution cv = Py.Return d) /\
  (exists d, CircleverseSimulation.get_global_statistics sim = Py.Return d) /\
  (Circlverse.cluster_cubes cv <> [] ->
   let ascending := Py.sorted (Circlverse.wealths cv) in
   ascending ≡ₚ Circlverse.wealths cv /\
   (Forall (fun w => is_nan w = false) (Circlverse.wealths cv) ->
    Sorted float_le ascending) /\
   exists (d : gmap string float) (median : float),
     Circlverse.get_wealth_distribution cv = Py.Return d /\
     ascending !! (length (Circlverse.cluster_cubes cv) / 2)%nat
       = Some median /\
     d !! "median"%string = Some median).
Proof.
  split; [| split; [| split; [| split]]].
  - intros Hc. unfold Circlverse.get_wealth_distribution.
    rewrite Hc. reflexivity.
  - intros HF. unfold CircleverseSimulation.get_global_statistics,
      CircleverseSimulation.all_wealths.
    rewrite (flat_map_wealths_nil _ HF). reflexivity.
  - destruct (Circlverse.cluster_cubes cv) as [|cube cubes] eqn:Hc.
    + exists ∅. unfold Circlverse.get_wealth_distribution.
      rewrite Hc. reflexivity.
    + destruct (get_wealth_distribution_returns cv) as (d & _ & Hd & _);
        [congruence | eauto].
  - apply get_global_statistics_returns.
  - intros Hne. split; [apply sorted_permutation |].
    split; [apply sorted_sorted |].
    apply get_wealth_distribution_returns. exact Hne.
Qed.

(** A community of two sample households has a median. *)
Lemma queries_never_raise_sample :
  let cv := sample_circlverse [0%float; 250%float] in
  Circlverse.cluster_cubes cv <> [] /\
  exists (d : gmap string float) (median : float),
    Circlverse.get_wealth_distribution cv = Py.Return d /\
    Py.sorted (Circlverse.wealths cv)
      !! (length (Circlverse.cluster_cubes cv) / 2)%nat = Some median /\
    d !! "median"%string = Some median.
Proof.
  assert (Hne : Circlverse.cluster_cubes
                  (sample_circlverse [0%float; 250%float]) <> [])
    by discriminate.
  split; [exact Hne |].
  apply (proj2 (proj2 (proj2 (proj2
           (queries_never_raise (sample_circlverse [0%float; 250%float])
              sample_simulation))))).
  exact Hne.
Defined.

(** ** Pause and reset *)

Section Controller.

Import CircleverseSimulation.

Lemma step_paused (sim : t) (n : Z) (g : Random.t) :
  is_paused sim = true -> step sim n g = (sim, g).
Proof. intros Hp. unfold step. rewrite Hp. reflexivity. Qed.

Lemma run_until_loop_paused (fuel : nat) (sim : t) (target : Z)
    (g : Random.t) :
  is_paused sim = true -> run_until_loop fuel sim target g = (sim, g).
Proof.
  intros Hp. destruct fuel as [|fuel]; [reflexivity |].
  cbn. rewrite Hp, andb_false_r. reflexivity.
Qed.

Lemma reset_cube_cleared (cube : ClusterCube.t) :
  household_cleared (reset_cube cube).
Proof. repeat split. Qed.

Lemma reset_circlverse_settings (cv : Circlverse.t) :
  community_settings (reset_circlverse cv) = community_settings cv.
Proof.
  unfold community_settings, reset_circlverse. cbn.
  rewrite map_map. f_equal.
Qed.

End Controller.

(** C5.  While the paused flag is set, [step(n)] returns the simulation as it
    was, for every [n]: month counter, communities, households, histories and
    aggregates are the same value, and no random draw is taken. *)
Theorem paused_step_changes_nothing (sim : CircleverseSimulation.t) (n : Z)
    (g : Random.t) :
  CircleverseSimulation.is_paused sim = true ->
  CircleverseSimulation.step sim n g = (sim, g).
Proof.
  apply step_paused.
Qed.

(** The sample simulation, paused after its two months, ignores [step(5)]. *)
Lemma paused_step_changes_nothing_sample :
  CircleverseSimulation.is_paused
    (CircleverseSimulation.pause sample_simulation) = true /\
  CircleverseSimulation.step
    (CircleverseSimulation.pause sample_simulation) 5 steady
  = (CircleverseSimulation.pause sample_simulation, steady).
Proof.
  split; [reflexivity |].
  apply (paused_step_changes_nothing
           (CircleverseSimulation.pause sample_simulation) 5 steady).
  reflexivity.
Defined.

(** C8.  [reset] puts the month counter at 0, empties every community's
    wealth history, and leaves every household of every community with
    wealth 0.0 and three empty histories; the settings of the communities and
    of their households (members with occupation and working state, economic
    parameters, radius, membership order, locations, expense baselines) are
    those from before the call. *)
Theorem reset_clears_and_keeps (sim : CircleverseSimulation.t) :
  let sim' := CircleverseSimulation.reset sim in
  CircleverseSimulation.current_month sim' = 0 /\
  Forall (fun cv =>
            Circlverse.wealth_history cv = [] /\
            Forall household_cleared (Circlverse.cluster_cubes cv))
    (CircleverseSimulation.circlverses sim') /\
  map community_settings (CircleverseSimulation.circlverses sim')
  = map community_settings (CircleverseSimulation.circlverses sim).
Proof.
  cbn. split; [reflexivity | split].
  - apply Forall_map, Forall_true. intros cv. cbn. split; [reflexivity |].
    apply Forall_map, Forall_true. intros cube. apply reset_cube_cleared.
  - rewrite map_map. apply map_ext. intros cv.
    apply reset_circlverse_settings.
Qed.

(** C10.  [reset] leaves the paused flag as it was.  After a [reset] of a
    paused simulation, [step] and [run_until] still return the simulation
    unchanged; [resume] is what clears the flag. *)
Theorem reset_keeps_paused_flag (sim : CircleverseSimulation.t) :
  let sim' := CircleverseSimulation.reset sim in
  CircleverseSimulation.is_paused sim' = CircleverseSimulation.is_paused sim /\
  (CircleverseSimulation.is_paused sim = true ->
   forall (n target_month : Z) (g : Random.t),
     CircleverseSimulation.step sim' n g = (sim', g) /\
     CircleverseSimulation.run_until sim' target_month g = (sim', g)) /\
  CircleverseSimulation.is_paused (CircleverseSimulation.resume sim') = false.
Proof.
  cbn. split; [reflexivity | split; [| reflexivity]].
  intros Hp n target_month g. split.
  - apply step_paused. exact Hp.
  - apply run_until_loop_paused. exact Hp.
Qed.

(** The sample simulation, paused and then reset, ignores [step(3)] and
    [run_until(7)]. *)
Lemma reset_keeps_paused_flag_sample :
  let sim' :=
    CircleverseSimulation.reset
      (CircleverseSimulation.pause sample_simulation) in
  CircleverseSimulation.is_paused sim' = true /\
  CircleverseSimulation.step sim' 3 steady = (sim', steady) /\
  CircleverseSimulation.run_until sim' 7 steady = (sim', steady).
Proof.
  split; [reflexivity |].
  apply (proj1 (proj2 (reset_keeps_paused_flag
                         (CircleverseSimulation.pause sample_simulation)))).
  reflexivity.
Defined.

(** ** The month counter *)

Section MonthCounter.

Import CircleverseSimulation.

Lemma step_loop_counts (k : nat) :
  forall (sim : t) (g : Random.t),
    current_month (step_loop k sim g).1 = current_month sim + Z.of_nat k /\
    is_paused (step_loop k sim g).1 = is_paused sim.
Proof.
  induction k as [|k IH]; intros sim g.
  - cbn. split; [lia | reflexivity].
  - cbn [step_loop].
    destruct (simulate_circlverses (circlverses sim) g) as [cvs g'].
    destruct (IH (mk cvs (current_month sim + 1) (is_paused sim)
                    (simulation_speed sim)) g') as [Hm Hp].
    rewrite Hm, Hp. cbn. split; [lia | reflexivity].
Qed.

Lemma step_counts (sim : t) (months : Z) (g : Random.t) :
  current_month (step sim months g).1
  = current_month sim
    + Session.months_simulated_by (is_paused sim, months) /\
  is_paused (step sim months g).1 = is_paused sim.
Proof.
  unfold step, Session.months_simulated_by. cbn [fst snd].
  destruct (is_paused sim) eqn:Hp.
  - cbn. split; [lia | exact Hp].
  - destruct (step_loop_counts (Z.to_nat months) sim g) as [Hm Hq].
    rewrite Hm, Hq. split; [lia | exact Hp].
Qed.

Lemma months_simulated_snoc (calls : list (bool * Z)) (c : bool * Z) :
  fold_right Z.add 0 (map Session.months_simulated_by (calls ++ [c]))
  = fold_right Z.add 0 (map Session.months_simulated_by calls)
    + Session.months_simulated_by c.
Proof.
  induction calls as [|c' calls IH]; cbn; [lia |].
  cbn in IH. rewrite IH. lia.
Qed.

Lemma call_step_counted (months : Z) (s : Session.t) :
  counted s -> counted (Session.call_step months s).
Proof.
  unfold counted, Session.call_step, Session.months_simulated.
  intros Hc.
  pose proof (step_counts (Session.sim s) months (Session.rng s)) as [Hm _].
  destruct (step (Session.sim s) months (Session.rng s)) as [sim' g'].
  cbn in *. rewrite months_simulated_snoc, Hm, Hc. reflexivity.
Qed.

Lemma call_run_until_loop_counted (fuel : nat) (target : Z) :
  forall s : Session.t,
    counted s -> counted (Session.call_run_until_loop fuel target s).
Proof.
  induction fuel as [|fuel IH]; intros s Hc; cbn; [exact Hc |].
  destruct ((current_month (Session.sim s) <? target)
            && negb (is_paused (Session.sim s))); [| exact Hc].
  apply IH, call_step_counted, Hc.
Qed.

Lemma exec_counted (s : Session.t) (c : Session.command) :
  counted s -> counted (Session.exec s c).
Proof.
  intros Hc. destruct c; cbn; try exact Hc.
  - apply call_step_counted, Hc.
  - apply call_run_until_loop_counted, Hc.
  - reflexivity.
Qed.

Lemma run_counted (cs : list Session.command) :
  forall s : Session.t, counted s -> counted (Session.run cs s).
Proof.
  induction cs as [|c cs IH]; intros s Hc; cbn; [exact Hc |].
  apply IH, exec_counted, Hc.
Qed.

(** The recorded loop of [run_until] is the loop of [run_until]. *)
Lemma call_run_until_loop_erase (fuel : nat) (target : Z) :
  forall s : Session.t,
    (Session.sim (Session.call_run_until_loop fuel target s),
     Session.rng (Session.call_run_until_loop fuel target s))
    = run_until_loop fuel (Session.sim s) target (Session.rng s).
Proof.
  induction fuel as [|fuel IH]; intros s; cbn; [reflexivity |].
  destruct ((current_month (Session.sim s) <? target)
            && negb (is_paused (Session.sim s))); [| reflexivity].
  rewrite IH. unfold Session.call_step.
  destruct (step (Session.sim s) 1 (Session.rng s)) as [sim' g'].
  reflexivity.
Qed.

(** The fuel of [run_until] suffices: when the loop stops, the simulation
    is paused or has reached the target month. *)
Lemma run_until_loop_done (fuel : nat) (target : Z) :
  forall (sim : t) (g : Random.t),
    (target - current_month sim <= Z.of_nat fuel) ->
    let sim' := (run_until_loop fuel sim target g).1 in
    (current_month sim' <? target) && negb (is_paused sim') = false.
Proof.
  induction fuel as [|fuel IH]; intros sim g Hf; cbn.
  - apply andb_false_intro1. apply Z.ltb_ge. lia.
  - destruct ((current_month sim <? target) && negb (is_paused sim))
      eqn:Hcond; [| exact Hcond].
    apply andb_prop in Hcond as [Hlt Hp].
    apply negb_true_iff in Hp.
    pose proof (step_counts sim 1 g) as [Hm _].
    destruct (step sim 1 g) as [sim1 g1]. cbn in Hm.
    apply IH. unfold Session.months_simulated_by in Hm.
    rewrite Hp in Hm. cbn in Hm. lia.
Qed.

Lemma run_until_done (sim : t) (target : Z) (g : Random.t) :
  let sim' := (run_until sim target g).1 in
  (current_month sim' <? target) && negb (is_paused sim') = false.
Proof. apply run_until_loop_done. lia. Qed.

End MonthCounter.

(** C4, as the code has it.  After any sequence of operations on a fresh
    simulation, [current_month] is the number of months simulated by the
    [step] calls completed since construction or the last [reset]: a call
    [step(months)] made while running counts [max(months, 0)], a call made
    while paused counts nothing, and [run_until] counts through the
    [step(1)] calls it makes. *)
Theorem current_month_counts_simulated_months (cs : list Session.command)
    (g : Random.t) :
  CircleverseSimulation.current_month
    (Session.sim (Session.run cs (Session.start g)))
  = Session.months_simulated (Session.run cs (Session.start g)).
Proof.
  apply run_counted. reflexivity.
Qed.

(** C4 as stated fails: one completed call [step(2)] puts the counter at 2,
    and one completed call [step(1)] on a paused simulation leaves it at
    0. *)
Lemma current_month_is_not_the_number_of_step_calls :
  let s := Session.run [Session.Step 2] (Session.start steady) in
  let p := Session.run [Session.Pause; Session.Step 1]
             (Session.start steady) in
  CircleverseSimulation.current_month (Session.sim s) = 2 /\
  Session.completed_step_calls s = 1 /\
  CircleverseSimulation.current_month (Session.sim p) = 0 /\
  Session.completed_step_calls p = 1.
Proof.
  repeat split.
Qed.

(** ** The order of floats is total and transitive *)

Section FloatTotalOrder.

Lemma SFcompare_rank (x y : spec_float) :
  x <> S754_nan -> y <> S754_nan ->
  SFcompare x y = Some (rank_compare (SFrank x) (SFrank y)).
Proof.
  intros Hx Hy.
  destruct x as [sx|sx| |sx mx ex]; [| | congruence |];
    (destruct y as [sy|sy| |sy my ey]; [| | congruence |]);
    try destruct sx; try destruct sy; try reflexivity;
    unfold rank_compare; cbn [SFcompare SFrank fst snd].
  rewrite !Z.compare_opp, (Z.compare_antisym ex ey).
  destruct (ex ?= ey) eqn:He; cbn; try reflexivity.
  change (Pos.compare_cont Eq mx my) with (Pos.compare mx my).
  rewrite (Pos.compare_antisym mx my). reflexivity.
Qed.

Lemma rank_compare_not_Gt (a b : Z * Z * Z) :
  rank_compare a b <> Gt <->
  a.1.1 < b.1.1 \/
  (a.1.1 = b.1.1 /\ (a.1.2 < b.1.2 \/ (a.1.2 = b.1.2 /\ a.2 <= b.2))).
Proof.
  unfold rank_compare.
  destruct (Z.compare_spec a.1.1 b.1.1), (Z.compare_spec a.1.2 b.1.2),
    (Z.compare_spec a.2 b.2); split; try congruence; try lia.
Qed.

(** [x <= y] says that neither is NaN and the ranks are in order. *)
Lemma leb_rank (x y : float) :
  (x <=? y)%float = true <->
  Prim2SF x <> S754_nan /\ Prim2SF y <> S754_nan /\
  rank_compare (SFrank (Prim2SF x)) (SFrank (Prim2SF y)) <> Gt.
Proof.
  rewrite FloatAxioms.leb_spec. unfold SFleb. split.
  - intros H.
    assert (Hx : Prim2SF x <> S754_nan)
      by (intros E; rewrite E in H; discriminate).
    assert (Hy : Prim2SF y <> S754_nan)
      by (intros E; rewrite E in H; destruct (Prim2SF x); discriminate).
    rewrite (SFcompare_rank _ _ Hx Hy) in H.
    repeat split; try assumption.
    destruct (rank_compare _ _); congruence.
  - intros (Hx & Hy & H). rewrite (SFcompare_rank _ _ Hx Hy).
    destruct (rank_compare _ _); congruence.
Qed.

Lemma leb_trans (x y z : float) :
  (x <=? y)%float = true -> (y <=? z)%float = true ->
  (x <=? z)%float = true.
Proof.
  rewrite !leb_rank, !rank_compare_not_Gt.
  intros (Hx & Hy & Hxy) (_ & Hz & Hyz). repeat split; try assumption. lia.
Qed.

Lemma leb_refl (x : float) : is_nan x = false -> (x <=? x)%float = true.
Proof.
  intros Hx%is_nan_false. rewrite leb_rank, rank_compare_not_Gt.
  repeat split; try assumption. lia.
Qed.

End FloatTotalOrder.

(** ** Months, one after another *)

Section Months.

Import CircleverseSimulation.

Lemma SFeqb_refl (x : spec_float) : x <> S754_nan -> SFeqb x x = true.
Proof.
  unfold SFeqb. destruct x as [s|s| |s m e]; cbn; intros Hx;
    [reflexivity | destruct s; reflexivity | congruence |].
  destruct s; rewrite Z.compare_refl, Pos.compare_cont_refl; reflexivity.
Qed.

(** [is_nan] recognises NaN. *)
Lemma is_nan_true (x : float) : is_nan x = true <-> Prim2SF x = S754_nan.
Proof.
  unfold is_nan. rewrite FloatAxioms.eqb_spec. split.
  - intros H. destruct (Prim2SF x) as [s|s| |s m e] eqn:Hx;
      [| | reflexivity |]; rewrite SFeqb_refl in H by discriminate;
      discriminate.
  - intros ->. reflexivity.
Qed.

(** NaN plus anything is NaN. *)
Lemma add_nan (w s : float) :
  is_nan w = true -> is_nan (w + s) = true.
Proof.
  rewrite !is_nan_true, add_spec. intros ->. reflexivity.
Qed.

Lemma not_nan_add (w s : float) :
  is_nan (w + s) = false -> is_nan w = false.
Proof.
  intros H. destruct (is_nan w) eqn:Hw; [| reflexivity].
  rewrite (add_nan _ s Hw) in H. discriminate.
Qed.

(** Adding an amount that is not negative gives a wealth that is not
    less. *)
Lemma add_nonneg_never_less (w s : float) :
  SF_nonneg (Prim2SF s) -> never_less w (w + s).
Proof.
  intros Hs. unfold never_less.
  destruct (is_nan (w + s)) eqn:Hn; [left; reflexivity | right].
  apply not_ltb_leb; [apply (not_nan_add _ _ Hn) | exact Hn |].
  apply add_nonneg_not_below. exact Hs.
Qed.

Lemma never_less_refl (w : float) : never_less w w.
Proof.
  unfold never_less. destruct (is_nan w) eqn:Hn; [left; reflexivity |].
  right. apply leb_refl. exact Hn.
Qed.

Lemma leb_not_nan_r (x y : float) :
  (x <=? y)%float = true -> is_nan y = false.
Proof.
  intros (_ & Hy & _)%leb_rank. destruct (is_nan y) eqn:Hn; [| reflexivity].
  apply is_nan_true in Hn. congruence.
Qed.

Lemma never_less_trans (a b c : float) :
  (is_nan b = true -> is_nan c = true) ->
  never_less a b -> never_less b c -> never_less a c.
Proof.
  unfold never_less. intros Hnan Hab [Hc|Hbc]; [left; exact Hc |].
  destruct Hab as [Hb|Hab].
  - apply Hnan in Hb. rewrite (leb_not_nan_r _ _ Hbc) in Hb. discriminate.
  - right. exact (leb_trans _ _ _ Hab Hbc).
Qed.

Lemma never_less_not_below (w w' : float) :
  never_less w w' -> (w' <? w)%float = false.
Proof.
  intros [Hn|Hle].
  - apply is_nan_true in Hn. rewrite FloatAxioms.ltb_spec, Hn. reflexivity.
  - apply leb_not_ltb. exact Hle.
Qed.

(** No month at all. *)
Lemma appended_0 {A : Type} (l : list A) : appended 0 l l.
Proof. exists []. split; [symmetry; apply app_nil_r | reflexivity]. Qed.

Lemma appended_1 {A : Type} (l : list A) (x : A) : appended 1 l (l ++ [x]).
Proof. exists [x]. split; reflexivity. Qed.

Lemma appended_trans {A : Type} (a b : nat) (l l' l'' : list A) :
  appended a l l' -> appended b l' l'' -> appended (a + b) l l''.
Proof.
  intros (m & -> & <-) (m' & -> & <-). exists (m ++ m'). split.
  - symmetry. apply app_assoc.
  - apply length_app.
Qed.

Lemma appended_length {A : Type} (k : nat) (l l' : list A) :
  appended k l l' -> length l' = (length l + k)%nat.
Proof. intros (m & -> & <-). apply length_app. Qed.

Lemma household_evolves_0 (c : ClusterCube.t) : household_evolves 0 c c.
Proof.
  unfold household_evolves.
  repeat split; auto using never_less_refl, appended_0.
Qed.

(** One month. *)
Lemma household_evolves_month (c : ClusterCube.t) (col em u : float) :
  household_evolves 1 c (ClusterCube.simulate_month c col em u).1.
Proof.
  unfold household_evolves, ClusterCube.simulate_month.
  cbn [fst ClusterCube.wealth_history ClusterCube.income_history
         ClusterCube.expense_history ClusterCube.current_wealth].
  split; [reflexivity |].
  split; [apply appended_1 |]. split; [apply appended_1 |].
  split; [apply appended_1 |]. split.
  - apply add_nan.
  - intros Hrate. apply add_nonneg_never_less.
    destruct (0 <? _)%float eqn:Hnet; [| exact I].
    apply mul_nonneg; assumption.
Qed.

(** Months add up. *)
Lemma household_evolves_trans (a b : nat) (c c' c'' : ClusterCube.t) :
  household_evolves a c c' -> household_evolves b c' c'' ->
  household_evolves (a + b) c c''.
Proof.
  intros (Hs & Hw & Hi & He & Hn & Hl) (Hs' & Hw' & Hi' & He' & Hn' & Hl').
  unfold household_evolves.
  split; [congruence |].
  split; [exact (appended_trans _ _ _ _ _ Hw Hw') |].
  split; [exact (appended_trans _ _ _ _ _ Hi Hi') |].
  split; [exact (appended_trans _ _ _ _ _ He He') |]. split.
  - auto.
  - intros Hrate. apply (never_less_trans _ _ _ Hn'); [auto |].
    apply Hl'. unfold household_settings in Hs.
    replace (ClusterCube.savings_rate c') with (ClusterCube.savings_rate c)
      by congruence.
    exact Hrate.
Qed.

Lemma drawn_0 (g : Random.t) : drawn 0 g = g.
Proof. destruct g as [f n]. unfold drawn. cbn. f_equal. lia. Qed.

Lemma drawn_drawn (a b : nat) (g : Random.t) :
  drawn b (drawn a g) = drawn (a + b) g.
Proof. unfold drawn. cbn. f_equal. lia. Qed.

Lemma uniform_drawn (g : Random.t) : (Random.uniform g).2 = drawn 1 g.
Proof. unfold Random.uniform, drawn. cbn. f_equal. lia. Qed.

(** The loop over the households of a community: one month and one draw
    for each. *)
Lemma simulate_cubes_evolves (col em : float) (cubes : list ClusterCube.t) :
  forall g : Random.t,
    Forall2 (household_evolves 1) cubes
      (Circlverse.simulate_cubes cubes col em g).1 /\
    (Circlverse.simulate_cubes cubes col em g).2 = drawn (length cubes) g.
Proof.
  induction cubes as [|cube cubes IH]; intros g; cbn [Circlverse.simulate_cubes].
  - split; [constructor | symmetry; apply drawn_0].
  - pose proof (uniform_drawn g) as Hg.
    destruct (Random.uniform g) as [u g1]. cbn [snd] in Hg. subst g1.
    destruct (IH (drawn 1 g)) as [Hcubes Hrng].
    destruct (Circlverse.simulate_cubes cubes col em (drawn 1 g))
      as [cubes' g2].
    cbn [fst snd] in *. split.
    + constructor; [apply household_evolves_month | exact Hcubes].
    + rewrite Hrng, drawn_drawn. reflexivity.
Qed.

Lemma community_evolves_0 (cv : Circlverse.t) : community_evolves 0 cv cv.
Proof.
  unfold community_evolves.
  do 4 (split; [reflexivity |]). split; [apply appended_0 |].
  apply Forall2_same_length_lookup_2; [reflexivity |].
  intros i c c' H1 H2. replace c' with c by congruence.
  apply household_evolves_0.
Qed.

Lemma community_evolves_trans (a b : nat) (cv cv' cv'' : Circlverse.t) :
  community_evolves a cv cv' -> community_evolves b cv' cv'' ->
  community_evolves (a + b) cv cv''.
Proof.
  intros (H1 & H2 & H3 & H4 & H5 & H6) (K1 & K2 & K3 & K4 & K5 & K6).
  unfold community_evolves.
  do 4 (split; [congruence |]).
  split; [exact (appended_trans _ _ _ _ _ H5 K5) |].
  clear - H6 K6. revert K6. generalize (Circlverse.cluster_cubes cv'').
  induction H6 as [|c c' cs cs' Hc _ IH]; intros l K6; inversion K6; subst.
  - constructor.
  - constructor; [eapply household_evolves_trans; eassumption | auto].
Qed.

(** One month of a community. *)
Lemma community_evolves_month (cv : Circlverse.t) (g : Random.t) :
  community_evolves 1 cv (Circlverse.simulate_month cv g).1 /\
  (Circlverse.simulate_month cv g).2
  = drawn (length (Circlverse.cluster_cubes cv)) g.
Proof.
  unfold Circlverse.simulate_month.
  destruct (simulate_cubes_evolves (Circlverse.cost_of_living_index cv)
              (Circlverse.economic_multiplier cv)
              (Circlverse.cluster_cubes cv) g) as [Hcubes Hrng].
  destruct (Circlverse.simulate_cubes _ _ _ g) as [cubes g'].
  cbn [fst snd] in *. split; [| exact Hrng].
  unfold community_evolves, Circlverse._update_metrics.
  cbn [Circlverse.set_cluster_cubes Circlverse.cluster_cubes].
  destruct cubes as [|cube cubes];
    cbn [Circlverse.circlverse_id Circlverse.radius
           Circlverse.economic_multiplier Circlverse.cost_of_living_index
           Circlverse.wealth_history Circlverse.cluster_cubes];
    (do 4 (split; [reflexivity |]));
    (split; [apply appended_1 | assumption]).
Qed.

(** One month of every community. *)
Lemma simulate_circlverses_evolves (cvs : list Circlverse.t) :
  forall g : Random.t,
    Forall2 (community_evolves 1) cvs (simulate_circlverses cvs g).1 /\
    (simulate_circlverses cvs g).2
    = drawn (length (flat_map Circlverse.cluster_cubes cvs)) g.
Proof.
  induction cvs as [|cv cvs IH]; intros g; cbn [simulate_circlverses].
  - split; [constructor | symmetry; apply drawn_0].
  - destruct (community_evolves_month cv g) as [Hcv Hg].
    destruct (Circlverse.simulate_month cv g) as [cv' g1].
    cbn [fst snd] in Hcv, Hg. subst g1.
    destruct (IH (drawn (length (Circlverse.cluster_cubes cv)) g))
      as [Hcvs Hrng].
    destruct (simulate_circlverses cvs _) as [cvs' g2].
    cbn [fst snd] in *. split; [constructor; assumption |].
    rewrite Hrng, drawn_drawn.
    change (flat_map Circlverse.cluster_cubes (cv :: cvs))
      with (Circlverse.cluster_cubes cv
            ++ flat_map Circlverse.cluster_cubes cvs).
    rewrite length_app. reflexivity.
Qed.

(** Evolving communities keep their numbers of households. *)
Lemma communities_evolve_count (k : nat) (cvs cvs' : list Circlverse.t) :
  Forall2 (community_evolves k) cvs cvs' ->
  length (flat_map Circlverse.cluster_cubes cvs')
  = length (flat_map Circlverse.cluster_cubes cvs).
Proof.
  induction 1 as [|cv cv' cvs cvs' Hcv _ IH]; [reflexivity |].
  change (length (Circlverse.cluster_cubes cv'
                  ++ flat_map Circlverse.cluster_cubes cvs')
          = length (Circlverse.cluster_cubes cv
                    ++ flat_map Circlverse.cluster_cubes cvs)).
  rewrite !length_app, IH.
  destruct Hcv as (_ & _ & _ & _ & _ & Hcubes).
  rewrite (Forall2_length _ _ _ Hcubes). reflexivity.
Qed.

Lemma communities_evolve_0 (cvs : list Circlverse.t) :
  Forall2 (community_evolves 0) cvs cvs.
Proof.
  induction cvs; constructor; [apply community_evolves_0 | assumption].
Qed.

Lemma communities_evolve_trans (a b : nat)
    (cvs cvs' cvs'' : list Circlverse.t) :
  Forall2 (community_evolves a) cvs cvs' ->
  Forall2 (community_evolves b) cvs' cvs'' ->
  Forall2 (community_evolves (a + b)) cvs cvs''.
Proof.
  intros H. revert cvs''.
  induction H as [|cv cv' cvs cvs' Hcv _ IH]; intros l K; inversion K; subst.
  - constructor.
  - constructor; [eapply community_evolves_trans; eassumption | auto].
Qed.

(** The loop of [step]: [k] months for every community, [k] draws for every
    household, and nothing else touched. *)
Lemma step_loop_evolves (k : nat) :
  forall (sim : t) (g : Random.t),
    let r := step_loop k sim g in
    Forall2 (community_evolves k) (circlverses sim) (circlverses r.1) /\
    r.2 = drawn (k * length (households sim)) g /\
    current_month r.1 = current_month sim + Z.of_nat k /\
    is_paused r.1 = is_paused sim /\
    simulation_speed r.1 = simulation_speed sim.
Proof.
  induction k as [|k IH]; intros sim g; cbn zeta.
  - cbn. repeat split; [apply communities_evolve_0 | | lia].
    symmetry. apply drawn_0.
  - cbn [step_loop].
    destruct (simulate_circlverses_evolves (circlverses sim) g) as [Hcvs Hg].
    destruct (simulate_circlverses (circlverses sim) g) as [cvs g1].
    cbn [fst snd] in Hcvs, Hg. subst g1.
    specialize (IH (mk cvs (current_month sim + 1) (is_paused sim)
                      (simulation_speed sim))
                  (drawn (length (flat_map Circlverse.cluster_cubes
                                    (circlverses sim))) g)).
    cbn zeta in IH. destruct IH as (Hk & Hrng & Hm & Hp & Hs).
    cbn [circlverses current_month is_paused simulation_speed] in *.
    repeat split; try assumption.
    + apply (communities_evolve_trans 1 k _ cvs); assumption.
    + rewrite Hrng, drawn_drawn. unfold households at 1.
      cbn [circlverses].
      rewrite (communities_evolve_count _ _ _ Hcvs).
      unfold households. f_equal; lia.
    + lia.
Qed.

End Months.

(** ** Stepping and running *)

Section Stepping.

Import CircleverseSimulation.

Lemma step_loop_add (a : nat) :
  forall (b : nat) (sim : t) (g : Random.t),
    step_loop (a + b) sim g
    = step_loop b (step_loop a sim g).1 (step_loop a sim g).2.
Proof.
  induction a as [|a IH]; intros b sim g; [reflexivity |].
  cbn [Nat.add step_loop].
  destruct (simulate_circlverses (circlverses sim) g) as [cvs g1].
  apply IH.
Qed.

Lemma run_until_loop_step_loop (fuel : nat) :
  forall (sim : t) (target : Z) (g : Random.t),
    is_paused sim = false ->
    Z.to_nat (target - current_month sim) = fuel ->
    run_until_loop fuel sim target g = step_loop fuel sim g.
Proof.
  induction fuel as [|fuel IH]; intros sim target g Hp Hf; [reflexivity |].
  cbn [run_until_loop step_loop].
  replace (current_month sim <? target) with true
    by (symmetry; apply Z.ltb_lt; lia).
  unfold step. change (Z.to_nat 1) with 1%nat. cbn [step_loop].
  rewrite !Hp. cbn [negb andb].
  destruct (simulate_circlverses (circlverses sim) g) as [cvs g1].
  apply IH; cbn; [reflexivity | lia].
Qed.

(** [run_until] is [step] for the months that are missing. *)
Lemma run_until_step (sim : t) (target : Z) (g : Random.t) :
  run_until sim target g = step sim (target - current_month sim) g.
Proof.
  unfold run_until, step. destruct (is_paused sim) eqn:Hp.
  - apply run_until_loop_paused. exact Hp.
  - apply run_until_loop_step_loop; [exact Hp | reflexivity].
Qed.

(** What [step] does, paused or not: the communities evolve by the months
    simulated, and so does the counter. *)
Lemma step_evolves (sim : t) (n : Z) (g : Random.t) :
  let k := if is_paused sim then 0%nat else Z.to_nat n in
  Forall2 (community_evolves k) (circlverses sim)
    (circlverses (step sim n g).1) /\
  (step sim n g).2 = drawn (k * length (households sim)) g /\
  current_month (step sim n g).1 = current_month sim + Z.of_nat k /\
  is_paused (step sim n g).1 = is_paused sim.
Proof.
  unfold step. destruct (is_paused sim) eqn:Hp; cbn zeta.
  - cbn [fst snd]. repeat split;
      [apply communities_evolve_0 | symmetry; apply drawn_0 | lia | exact Hp].
  - destruct (step_loop_evolves (Z.to_nat n) sim g) as (H1 & H2 & H3 & H4 & _).
    repeat split; try assumption. congruence.
Qed.

Lemma communities_evolve_settings (k : nat) (cvs cvs' : list Circlverse.t) :
  Forall2 (community_evolves k) cvs cvs' ->
  map community_settings cvs' = map community_settings cvs.
Proof.
  induction 1 as [|cv cv' cvs cvs' Hcv _ IH]; [reflexivity |].
  cbn [map]. rewrite IH. f_equal.
  destruct Hcv as (H1 & H2 & H3 & H4 & _ & Hcubes).
  unfold community_settings. rewrite H1, H2, H3, H4. f_equal.
  clear - Hcubes. induction Hcubes as [|c c' cs cs' Hc _ IHc];
    [reflexivity |].
  cbn [map]. rewrite IHc. f_equal. apply Hc.
Qed.

Lemma communities_evolve_households (k : nat)
    (cvs cvs' : list Circlverse.t) :
  Forall2 (community_evolves k) cvs cvs' ->
  Forall2 (household_evolves k)
    (flat_map Circlverse.cluster_cubes cvs)
    (flat_map Circlverse.cluster_cubes cvs').
Proof.
  induction 1 as [|cv cv' cvs cvs' Hcv _ IH]; [constructor |].
  change (Forall2 (household_evolves k)
            (Circlverse.cluster_cubes cv
             ++ flat_map Circlverse.cluster_cubes cvs)
            (Circlverse.cluster_cubes cv'
             ++ flat_map Circlverse.cluster_cubes cvs')).
  apply Forall2_app; [apply Hcv | exact IH].
Qed.

End Stepping.

(** X1.  [step] and [run_until] never change the settings of a community or
    of a household: identities, members with their occupations and working
    states, dependents, locations, savings rates, expense baselines, radius,
    the two economic parameters and the membership order are the same after
    the call, for every argument and every random source. *)
Theorem stepping_keeps_settings (sim : CircleverseSimulation.t)
    (n target_month : Z) (g : Random.t) :
  map community_settings
    (CircleverseSimulation.circlverses (CircleverseSimulation.step sim n g).1)
  = map community_settings (CircleverseSimulation.circlverses sim) /\
  map community_settings
    (CircleverseSimulation.circlverses
       (CircleverseSimulation.run_until sim target_month g).1)
  = map community_settings (CircleverseSimulation.circlverses sim).
Proof.
  rewrite run_until_step. split.
  - destruct (step_evolves sim n g) as [H _].
    exact (communities_evolve_settings _ _ _ H).
  - destruct (step_evolves sim
                (target_month - CircleverseSimulation.current_month sim) g)
      as [H _].
    exact (communities_evolve_settings _ _ _ H).
Qed.

(** X2.  A call [step(n)] on a running simulation appends exactly
    [max(n, 0)] entries to each of the three histories of every household
    and to the wealth history of every community, and leaves the entries
    that were there as they are, in their places: each history after the
    call is the history before it followed by [max(n, 0)] entries.  So every
    history is [max(n, 0)] entries longer, and no household or community is
    added or dropped. *)
Theorem step_extends_histories (sim : CircleverseSimulation.t) (n : Z)
    (g : Random.t) :
  CircleverseSimulation.is_paused sim = false ->
  let sim' := (CircleverseSimulation.step sim n g).1 in
  Forall2 (fun cv cv' =>
             (exists entries : list float,
                Circlverse.wealth_history cv'
                = Circlverse.wealth_history cv ++ entries /\
                length entries = Z.to_nat n) /\
             length (Circlverse.cluster_cubes cv')
             = length (Circlverse.cluster_cubes cv))
    (CircleverseSimulation.circlverses sim)
    (CircleverseSimulation.circlverses sim') /\
  Forall2 (fun c c' =>
             (exists wealths incomes expenses : list float,
                ClusterCube.wealth_history c'
                = ClusterCube.wealth_history c ++ wealths /\
                ClusterCube.income_history c'
                = ClusterCube.income_history c ++ incomes /\
                ClusterCube.expense_history c'
                = ClusterCube.expense_history c ++ expenses /\
                length wealths = Z.to_nat n /\
                length incomes = Z.to_nat n /\
                length expenses = Z.to_nat n) /\
             length (ClusterCube.wealth_history c')
             = (length (ClusterCube.wealth_history c) + Z.to_nat n)%nat /\
             length (ClusterCube.income_history c')
             = (length (ClusterCube.income_history c) + Z.to_nat n)%nat /\
             length (ClusterCube.expense_history c')
             = (length (ClusterCube.expense_history c) + Z.to_nat n)%nat)
    (households sim) (households sim').
Proof.
  intros Hp. cbn zeta.
  destruct (step_evolves sim n g) as [H _]. rewrite Hp in H. split.
  - eapply Forall2_impl; [exact H |].
    intros cv cv' (_ & _ & _ & _ & Hh & Hc). split; [exact Hh |].
    symmetry. exact (Forall2_length _ _ _ Hc).
  - eapply Forall2_impl; [exact (communities_evolve_households _ _ _ H) |].
    intros c c' (_ & Hw & Hi & He & _).
    pose proof (appended_length _ _ _ Hw) as Lw.
    pose proof (appended_length _ _ _ Hi) as Li.
    pose proof (appended_length _ _ _ He) as Le.
    destruct Hw as (lw & Hw & Hlw), Hi as (li & Hi & Hli),
      He as (le & He & Hle).
    split; [exists lw, li, le |]; auto 10.
Qed.

(** The sample simulation, after its two months, takes three more: the
    entries of each history stay in front of three new ones. *)
Lemma step_extends_histories_sample :
  CircleverseSimulation.is_paused sample_simulation = false /\
  Forall2 (fun c c' =>
             exists wealths incomes expenses : list float,
               ClusterCube.wealth_history c'
               = ClusterCube.wealth_history c ++ wealths /\
               ClusterCube.income_history c'
               = ClusterCube.income_history c ++ incomes /\
               ClusterCube.expense_history c'
               = ClusterCube.expense_history c ++ expenses /\
               length wealths = 3%nat /\
               length incomes = 3%nat /\
               length expenses = 3%nat)
    (households sample_simulation)
    (households (CircleverseSimulation.step sample_simulation 3 steady).1).
Proof.
  assert (Hp : CircleverseSimulation.is_paused sample_simulation = false)
    by reflexivity.
  split; [exact Hp |].
  eapply Forall2_impl;
    [exact (proj2 (step_extends_histories sample_simulation 3 steady Hp)) |].
  intros c c' [H _]. exact H.
Defined.

(** ** Random draws *)

Section Draws.

(** Household [i] of a community is updated with draw number
    [cursor + i]. *)
Lemma simulate_cubes_draws (col em : float) (cubes : list ClusterCube.t) :
  forall g : Random.t,
    (Circlverse.simulate_cubes cubes col em g).1
    = imap (fun i cube =>
              (ClusterCube.simulate_month cube col em
                 (Random.uniform_at g (Random.cursor g + i))).1)
        cubes.
Proof.
  induction cubes as [|cube cubes IH]; intros g; [reflexivity |].
  cbn [Circlverse.simulate_cubes imap]. unfold Random.uniform.
  specialize (IH (Random.mk (Random.uniform_at g) (S (Random.cursor g)))).
  destruct (Circlverse.simulate_cubes cubes col em _) as [cubes' g2].
  cbn [fst] in *. rewrite Nat.add_0_r. f_equal.
  rewrite IH. apply imap_ext. intros i c _.
  unfold compose. cbn [Random.uniform_at Random.cursor].
  replace (S (Random.cursor g) + i)%nat with (Random.cursor g + S i)%nat
    by lia.
  reflexivity.
Qed.

End Draws.

(** X3.  The random source is consumed one draw per household per month, in
    membership order: in a community month, household [i] is updated with
    draw number [cursor + i] and the cursor moves on by the number of
    households; a running [step(n)] moves it on by [max(n, 0)] times the
    number of households of the simulation, and never alters the draws. *)
Theorem draws_are_consumed_in_order (cv : Circlverse.t)
    (sim : CircleverseSimulation.t) (n : Z) (g : Random.t) :
  Circlverse.cluster_cubes (Circlverse.simulate_month cv g).1
  = imap (fun i cube =>
            (ClusterCube.simulate_month cube
               (Circlverse.cost_of_living_index cv)
               (Circlverse.economic_multiplier cv)
               (Random.uniform_at g (Random.cursor g + i))).1)
      (Circlverse.cluster_cubes cv) /\
  (Circlverse.simulate_month cv g).2
  = drawn (length (Circlverse.cluster_cubes cv)) g /\
  (CircleverseSimulation.is_paused sim = false ->
   (CircleverseSimulation.step sim n g).2
   = drawn (Z.to_nat n * length (households sim)) g).
Proof.
  split; [| split].
  - unfold Circlverse.simulate_month.
    rewrite <- simulate_cubes_draws.
    destruct (Circlverse.simulate_cubes _ _ _ g) as [cubes g'].
    cbn [fst]. unfold Circlverse._update_metrics.
    cbn [Circlverse.set_cluster_cubes Circlverse.cluster_cubes].
    destruct cubes; reflexivity.
  - apply community_evolves_month.
  - intros Hp. destruct (step_evolves sim n g) as (_ & H & _).
    rewrite Hp in H. exact H.
Qed.

(** The sample simulation has two households; three months take six
    draws. *)
Lemma draws_are_consumed_in_order_sample :
  CircleverseSimulation.is_paused sample_simulation = false /\
  (CircleverseSimulation.step sample_simulation 3 steady).2 = drawn 6 steady.
Proof.
  split; [reflexivity |].
  apply (proj2 (proj2 (draws_are_consumed_in_order
                         (sample_circlverse []) sample_simulation 3 steady))).
  reflexivity.
Defined.

(** X4.  [run_until(target)] is [step(target - current_month)]: the same
    simulation and the same random source come out, paused or not.  On a
    running simulation the counter ends at the larger of its old value and
    the target; a target that is not ahead changes nothing. *)
Theorem run_until_is_step (sim : CircleverseSimulation.t) (target_month : Z)
    (g : Random.t) :
  CircleverseSimulation.run_until sim target_month g
  = CircleverseSimulation.step sim
      (target_month - CircleverseSimulation.current_month sim) g /\
  (CircleverseSimulation.is_paused sim = false ->
   CircleverseSimulation.current_month
     (CircleverseSimulation.run_until sim target_month g).1
   = Z.max (CircleverseSimulation.current_month sim) target_month) /\
  (target_month <= CircleverseSimulation.current_month sim ->
   CircleverseSimulation.run_until sim target_month g = (sim, g)).
Proof.
  split; [apply run_until_step | split].
  - intros Hp. rewrite run_until_step.
    destruct (step_evolves sim
                (target_month - CircleverseSimulation.current_month sim) g)
      as (_ & _ & Hm & _).
    rewrite Hp in Hm. lia.
  - intros Hle. unfold CircleverseSimulation.run_until.
    replace (Z.to_nat (target_month
                       - CircleverseSimulation.current_month sim))
      with 0%nat by lia.
    reflexivity.
Qed.

(** The sample simulation is at month 2: a run until month 5 ends at month
    5, and a run until month 1 changes nothing. *)
Lemma run_until_is_step_sample :
  (CircleverseSimulation.is_paused sample_simulation = false /\
   1 <= CircleverseSimulation.current_month sample_simulation) /\
  CircleverseSimulation.current_month
    (CircleverseSimulation.run_until sample_simulation 5 steady).1
  = Z.max (CircleverseSimulation.current_month sample_simulation) 5 /\
  CircleverseSimulation.run_until sample_simulation 1 steady
  = (sample_simulation, steady).
Proof.
  pose proof (run_until_is_step sample_simulation 5 steady) as (_ & H5 & _).
  pose proof (run_until_is_step sample_simulation 1 steady) as (_ & _ & H1).
  assert (Hp : CircleverseSimulation.is_paused sample_simulation = false)
    by reflexivity.
  assert (Hm : 1 <= CircleverseSimulation.current_month sample_simulation)
    by (vm_compute; discriminate).
  split; [split; assumption |]. split; [exact (H5 Hp) | exact (H1 Hm)].
Defined.

(** X5.  Months add up: [step(a)] followed by [step(b)], with neither
    argument negative, is [step(a + b)] on the same random source. *)
Theorem step_then_step (sim : CircleverseSimulation.t) (a b : Z)
    (g : Random.t) :
  0 <= a -> 0 <= b ->
  CircleverseSimulation.step (CircleverseSimulation.step sim a g).1 b
    (CircleverseSimulation.step sim a g).2
  = CircleverseSimulation.step sim (a + b) g.
Proof.
  intros Ha Hb.
  destruct (step_evolves sim a g) as (_ & _ & _ & Hp).
  unfold CircleverseSimulation.step in *.
  destruct (CircleverseSimulation.is_paused sim) eqn:Hs.
  - cbn [fst snd]. rewrite Hs. reflexivity.
  - rewrite Hp, Z2Nat.inj_add by assumption. symmetry.
    apply step_loop_add.
Qed.

(** Two months and then three are five months of the sample simulation. *)
Lemma step_then_step_sample :
  (0 <= 2 /\ 0 <= 3) /\
  CircleverseSimulation.step
    (CircleverseSimulation.step sample_simulation 2 steady).1 3
    (CircleverseSimulation.step sample_simulation 2 steady).2
  = CircleverseSimulation.step sample_simulation (2 + 3) steady.
Proof.
  split; [lia |].
  apply (step_then_step sample_simulation 2 3 steady); lia.
Defined.

(** X6.  Stepping never lowers a household's wealth: for every household
    whose savings rate is not negative, the wealth after [step] or
    [run_until] is not below the wealth before, however many months were
    simulated and whatever the draws and the economic parameters. *)
Theorem stepping_never_lowers_wealth (sim : CircleverseSimulation.t)
    (n target_month : Z) (g : Random.t) :
  let kept (c c' : ClusterCube.t) :=
    (0 <=? ClusterCube.savings_rate c)%float = true ->
    (ClusterCube.current_wealth c' <? ClusterCube.current_wealth c)%float
    = false in
  Forall2 kept (households sim)
    (households (CircleverseSimulation.step sim n g).1) /\
  Forall2 kept (households sim)
    (households (CircleverseSimulation.run_until sim target_month g).1).
Proof.
  cbn zeta. rewrite run_until_step.
  assert (Hk : forall k cvs cvs',
             Forall2 (community_evolves k) cvs cvs' ->
             Forall2 (fun c c' =>
                        (0 <=? ClusterCube.savings_rate c)%float = true ->
                        (ClusterCube.current_wealth c'
                         <? ClusterCube.current_wealth c)%float = false)
               (flat_map Circlverse.cluster_cubes cvs)
               (flat_map Circlverse.cluster_cubes cvs')).
  { intros k cvs cvs' H.
    eapply Forall2_impl; [exact (communities_evolve_households _ _ _ H) |].
    intros c c' (_ & _ & _ & _ & _ & Hl) Hrate.
    apply never_less_not_below, Hl, Hrate. }
  split; eapply Hk, step_evolves.
Qed.

(** ** Aggregates after a month *)

Section Aggregates.

Import CircleverseSimulation.

Lemma simulate_month_cubes (cv : Circlverse.t) (g : Random.t) :
  Circlverse.cluster_cubes (Circlverse.simulate_month cv g).1
  = (Circlverse.simulate_cubes (Circlverse.cluster_cubes cv)
       (Circlverse.cost_of_living_index cv)
       (Circlverse.economic_multiplier cv) g).1.
Proof.
  unfold Circlverse.simulate_month.
  destruct (Circlverse.simulate_cubes _ _ _ g) as [cubes g'].
  cbn [fst]. unfold Circlverse._update_metrics.
  cbn [Circlverse.set_cluster_cubes Circlverse.cluster_cubes].
  destruct cubes; reflexivity.
Qed.

Lemma simulate_cubes_newest (col em : float) (cubes : list ClusterCube.t)
    (g : Random.t) :
  Forall (fun cube =>
            last (ClusterCube.wealth_history cube)
            = Some (ClusterCube.current_wealth cube))
    (Circlverse.simulate_cubes cubes col em g).1.
Proof.
  rewrite simulate_cubes_draws. apply Forall_forall.
  intros c' Hin. apply elem_of_lookup_imap in Hin as (i & c & -> & _).
  cbn. apply last_snoc.
Qed.

Lemma simulate_month_settled (cv : Circlverse.t) (g : Random.t) :
  community_settled (Circlverse.simulate_month cv g).1 /\
  Circlverse.wealth_history (Circlverse.simulate_month cv g).1
  = Circlverse.wealth_history cv
    ++ [Circlverse.average_wealth (Circlverse.simulate_month cv g).1].
Proof.
  pose proof (simulate_cubes_newest (Circlverse.cost_of_living_index cv)
                (Circlverse.economic_multiplier cv)
                (Circlverse.cluster_cubes cv) g) as Hnew.
  unfold Circlverse.simulate_month.
  destruct (Circlverse.simulate_cubes _ _ _ g) as [cubes g'].
  cbn [fst] in *. unfold community_settled, Circlverse._update_metrics.
  cbn [Circlverse.set_cluster_cubes Circlverse.cluster_cubes].
  destruct cubes as [|cube cubes];
    cbn [Circlverse.wealth_history Circlverse.average_wealth
           Circlverse.total_wealth Circlverse.cluster_cubes];
    rewrite last_snoc; repeat split; assumption.
Qed.

Lemma simulate_circlverses_settled (cvs : list Circlverse.t) :
  forall g : Random.t,
    Forall community_settled (simulate_circlverses cvs g).1.
Proof.
  induction cvs as [|cv cvs IH]; intros g; cbn [simulate_circlverses];
    [constructor |].
  pose proof (simulate_month_settled cv g) as [Hcv _].
  destruct (Circlverse.simulate_month cv g) as [cv' g1].
  specialize (IH g1). destruct (simulate_circlverses cvs g1) as [cvs' g2].
  constructor; assumption.
Qed.

(** A settled community answers the distribution query with its stored
    aggregates. *)
Lemma settled_distribution (cv : Circlverse.t) :
  community_settled cv -> Circlverse.cluster_cubes cv <> [] ->
  exists d : gmap string float,
    Circlverse.get_wealth_distribution cv = Py.Return d /\
    d !! "total"%string = Some (Circlverse.total_wealth cv) /\
    d !! "mean"%string = Some (Circlverse.average_wealth cv).
Proof.
  intros (_ & Htotal & Havg & _) Hne.
  unfold Circlverse.get_wealth_distribution.
  destruct (Circlverse.cluster_cubes cv) as [|cube cubes] eqn:Hcubes;
    [congruence |].
  set (ws := Circlverse.wealths cv) in *.
  assert (Hlen : length ws = S (length cubes)).
  { unfold ws, Circlverse.wealths. rewrite Hcubes, length_map. reflexivity. }
  destruct (lookup_lt_is_Some_2 (Py.sorted ws) (length ws / 2)%nat)
    as [median Hmed].
  { rewrite sorted_length, Hlen. apply Nat.div_lt; lia. }
  destruct ws as [|w ws'] eqn:Hws; [discriminate |].
  unfold Py.truediv_int, Py.getitem. rewrite half_index, Hmed.
  replace (Z.of_nat (length (w :: ws')) =? 0) with false
    by (symmetry; apply Z.eqb_neq; cbn [length]; lia).
  cbn [Py.min Py.max mbind result_bind Py.bind].
  eexists. split; [reflexivity |]. split.
  - rewrite !lookup_insert_ne by discriminate.
    rewrite lookup_insert_eq. f_equal. symmetry. exact Htotal.
  - rewrite !lookup_insert_ne by discriminate.
    rewrite lookup_insert_eq. f_equal. rewrite Havg, Htotal, Hlen.
    reflexivity.
Qed.

End Aggregates.

(** X7.  After a community's [simulate_month] its aggregates are up to date:
    [total_wealth] is the sum of the households' wealths, [average_wealth]
    is that total over the number of households ([0.0] for a community
    without households), the wealth history has grown by exactly that
    average, and every household's newest wealth entry is its current
    wealth.  With households, [get_wealth_distribution] reports the same
    total and the same mean. *)
Theorem month_updates_aggregates (cv : Circlverse.t) (g : Random.t) :
  let cv' := (Circlverse.simulate_month cv g).1 in
  community_settled cv' /\
  Circlverse.wealth_history cv'
  = Circlverse.wealth_history cv ++ [Circlverse.average_wealth cv'] /\
  (Circlverse.cluster_cubes cv <> [] ->
   exists d : gmap string float,
     Circlverse.get_wealth_distribution cv' = Py.Return d /\
     d !! "total"%string = Some (Circlverse.total_wealth cv') /\
     d !! "mean"%string = Some (Circlverse.average_wealth cv')).
Proof.
  cbn zeta. destruct (simulate_month_settled cv g) as [Hs Hh].
  split; [exact Hs | split; [exact Hh |]].
  intros Hne. apply settled_distribution; [exact Hs |].
  destruct (community_evolves_month cv g) as [(_ & _ & _ & _ & _ & Hc) _].
  intros Hnil. rewrite Hnil in Hc. inversion Hc. congruence.
Qed.

(** The community of two sample households, after a month. *)
Lemma month_updates_aggregates_sample :
  let cv := sample_circlverse [0%float; 250%float] in
  let cv' := (Circlverse.simulate_month cv steady).1 in
  Circlverse.cluster_cubes cv <> [] /\
  exists d : gmap string float,
    Circlverse.get_wealth_distribution cv' = Py.Return d /\
    d !! "total"%string = Some (Circlverse.total_wealth cv') /\
    d !! "mean"%string = Some (Circlverse.average_wealth cv').
Proof.
  assert (Hne : Circlverse.cluster_cubes
                  (sample_circlverse [0%float; 250%float]) <> [])
    by discriminate.
  split; [exact Hne |].
  apply (proj2 (proj2 (month_updates_aggregates
                         (sample_circlverse [0%float; 250%float]) steady))).
  exact Hne.
Defined.

(** X8.  After a call [step(n)] with [n >= 1] on a running simulation, every
    community is in that up-to-date state: stored total, stored average and
    newest history entries all describe the households as they now are. *)
Theorem step_leaves_aggregates_current (sim : CircleverseSimulation.t)
    (n : Z) (g : Random.t) :
  CircleverseSimulation.is_paused sim = false -> 1 <= n ->
  Forall community_settled
    (CircleverseSimulation.circlverses (CircleverseSimulation.step sim n g).1).
Proof.
  intros Hp Hn. unfold CircleverseSimulation.step. rewrite Hp.
  replace (Z.to_nat n) with (Z.to_nat (n - 1) + 1)%nat by lia.
  rewrite step_loop_add.
  destruct (CircleverseSimulation.step_loop (Z.to_nat (n - 1)) sim g)
    as [sim1 g1].
  cbn [fst snd CircleverseSimulation.step_loop].
  pose proof (simulate_circlverses_settled
                (CircleverseSimulation.circlverses sim1) g1) as Hs.
  destruct (CircleverseSimulation.simulate_circlverses _ g1) as [cvs g2].
  exact Hs.
Qed.

(** Three more months of the sample simulation. *)
Lemma step_leaves_aggregates_current_sample :
  (CircleverseSimulation.is_paused sample_simulation = false /\ 1 <= 3) /\
  Forall community_settled
    (CircleverseSimulation.circlverses
       (CircleverseSimulation.step sample_simulation 3 steady).1).
Proof.
  split; [split; [reflexivity | lia] |].
  apply (step_leaves_aggregates_current sample_simulation 3 steady);
    [reflexivity | lia].
Defined.

(** ** Queries after a reset *)

Section AfterReset.

Import CircleverseSimulation.

Lemma sum_zeros (n : nat) :
  fold_left PrimFloat.add (replicate n 0%float) 0%float = 0%float.
Proof.
  induction n as [|n IH]; [reflexivity |].
  cbn [replicate fold_left]. change (0 + 0)%float with 0%float. exact IH.
Qed.

Lemma sorted_zeros (n : nat) :
  Py.sorted (replicate n 0%float) = replicate n 0%float.
Proof.
  induction n as [|n IH]; [reflexivity |].
  cbn [replicate]. rewrite sorted_cons, IH. destruct n; reflexivity.
Qed.

Lemma min_zeros (n : nat) :
  Py.min (replicate (S n) 0%float) = Py.Return 0%float.
Proof.
  cbn [replicate Py.min]. f_equal.
  induction n as [|n IH]; [reflexivity |]. cbn [replicate fold_left].
  change (0 <? 0)%float with false. exact IH.
Qed.

Lemma max_zeros (n : nat) :
  Py.max (replicate (S n) 0%float) = Py.Return 0%float.
Proof.
  cbn [replicate Py.max]. f_equal.
  induction n as [|n IH]; [reflexivity |]. cbn [replicate fold_left].
  change (0 <? 0)%float with false. exact IH.
Qed.

Lemma reset_wealths (cv : Circlverse.t) :
  Circlverse.wealths (reset_circlverse cv)
  = replicate (length (Circlverse.cluster_cubes cv)) 0%float.
Proof.
  unfold Circlverse.wealths, reset_circlverse.
  cbn [Circlverse.set_wealth_history Circlverse.set_cluster_cubes
         Circlverse.cluster_cubes].
  induction (Circlverse.cluster_cubes cv) as [|c cs IH]; [reflexivity |].
  cbn [map length replicate]. rewrite IH. reflexivity.
Qed.

Lemma reset_all_wealths (sim : t) :
  all_wealths (reset sim) = replicate (length (households sim)) 0%float.
Proof.
  unfold all_wealths, households, reset. cbn [circlverses].
  induction (circlverses sim) as [|cv cvs IH]; [reflexivity |].
  change (Circlverse.wealths (reset_circlverse cv)
          ++ flat_map Circlverse.wealths (map reset_circlverse cvs)
          = replicate
              (length (Circlverse.cluster_cubes cv
                       ++ flat_map Circlverse.cluster_cubes cvs))
              0%float).
  rewrite IH, reset_wealths, length_app, replicate_add. reflexivity.
Qed.

(** The households counted community by community. *)
Lemma household_count (cvs : list Circlverse.t) :
  fold_left Z.add
    (map (fun cv => Z.of_nat (length (Circlverse.cluster_cubes cv))) cvs) 0
  = Z.of_nat (length (flat_map Circlverse.cluster_cubes cvs)).
Proof.
  assert (H : forall acc,
             fold_left Z.add
               (map (fun cv => Z.of_nat (length (Circlverse.cluster_cubes cv)))
                  cvs) acc
             = acc + Z.of_nat (length (flat_map Circlverse.cluster_cubes cvs))).
  { induction cvs as [|cv cvs IH]; intros acc; [cbn; lia |].
    change (flat_map Circlverse.cluster_cubes (cv :: cvs))
      with (Circlverse.cluster_cubes cv
            ++ flat_map Circlverse.cluster_cubes cvs).
    cbn [map fold_left]. rewrite IH, length_app. lia. }
  rewrite H. lia.
Qed.

Lemma reset_households_count (sim : t) :
  length (households (reset sim)) = length (households sim).
Proof.
  unfold households, reset. cbn [circlverses].
  induction (circlverses sim) as [|cv cvs IH]; [reflexivity |].
  change (length (Circlverse.cluster_cubes (reset_circlverse cv)
                  ++ flat_map Circlverse.cluster_cubes
                       (map reset_circlverse cvs))
          = length (Circlverse.cluster_cubes cv
                    ++ flat_map Circlverse.cluster_cubes cvs)).
  rewrite !length_app, IH. cbn. rewrite length_map. reflexivity.
Qed.

Lemma reset_cube_twice (c : ClusterCube.t) :
  reset_cube (reset_cube c) = reset_cube c.
Proof. reflexivity. Qed.

Lemma reset_circlverse_twice (cv : Circlverse.t) :
  reset_circlverse (reset_circlverse cv) = reset_circlverse cv.
Proof.
  unfold reset_circlverse, Circlverse.set_wealth_history,
    Circlverse.set_cluster_cubes.
  cbn. f_equal. rewrite map_map. apply map_ext. intros c. reflexivity.
Qed.

End AfterReset.

(** X9.  After [reset] every query reports zero wealth: each community has
    Gini coefficient 0.0 and, if it has households, a distribution whose
    minimum, maximum, median and total are 0.0; if the simulation has
    households, the global statistics report month 0, total, minimum and
    maximum 0.0, and the unchanged number of households.  A second [reset]
    changes nothing. *)
Theorem after_reset_all_is_zero (sim : CircleverseSimulation.t) :
  let sim' := CircleverseSimulation.reset sim in
  CircleverseSimulation.reset sim' = sim' /\
  Forall (fun cv =>
            Circlverse.calculate_gini_coefficient cv = Py.Return 0.0%float /\
            (Circlverse.cluster_cubes cv <> [] ->
             exists d : gmap string float,
               Circlverse.get_wealth_distribution cv = Py.Return d /\
               d !! "min"%string = Some 0%float /\
               d !! "max"%string = Some 0%float /\
               d !! "median"%string = Some 0%float /\
               d !! "total"%string = Some 0%float))
    (CircleverseSimulation.circlverses sim') /\
  (households sim <> [] ->
   exists d : gmap string CircleverseSimulation.number,
     CircleverseSimulation.get_global_statistics sim' = Py.Return d /\
     d !! "current_month"%string = Some (CircleverseSimulation.Int 0) /\
     d !! "total_households"%string
     = Some (CircleverseSimulation.Int (Z.of_nat (length (households sim))))
     /\
     d !! "global_total_wealth"%string
     = Some (CircleverseSimulation.Float 0%float) /\
     d !! "global_min_wealth"%string
     = Some (CircleverseSimulation.Float 0%float) /\
     d !! "global_max_wealth"%string
     = Some (CircleverseSimulation.Float 0%float)).
Proof.
  cbn zeta. split; [| split].
  - unfold CircleverseSimulation.reset.
    cbn [CircleverseSimulation.circlverses CircleverseSimulation.is_paused
           CircleverseSimulation.simulation_speed].
    f_equal. rewrite map_map. apply map_ext. intros cv.
    apply reset_circlverse_twice.
  - unfold CircleverseSimulation.reset.
    cbn [CircleverseSimulation.circlverses].
    apply Forall_map, Forall_true. intros cv. split.
    + rewrite calculate_gini_coefficient_wealths, reset_wealths.
      cbn zeta. rewrite sorted_zeros.
      unfold Py.sum. rewrite sum_zeros.
      change (0 =? 0)%float with true.
      destruct (_ <? 2); reflexivity.
    + intros Hne. unfold Circlverse.get_wealth_distribution.
      destruct (Circlverse.cluster_cubes
                  (CircleverseSimulation.reset_circlverse cv))
        as [|c cs] eqn:Hc; [congruence |].
      rewrite reset_wealths.
      assert (Hlen : length (Circlverse.cluster_cubes cv) = S (length cs)).
      { apply (f_equal length) in Hc. cbn in Hc.
        rewrite length_map in Hc. exact Hc. }
      rewrite Hlen, min_zeros, max_zeros, sorted_zeros.
      unfold Py.sum. rewrite sum_zeros.
      unfold Py.truediv_int, Py.getitem.
      rewrite length_replicate, half_index.
      replace (Z.of_nat (S (length cs)) =? 0) with false
        by (symmetry; apply Z.eqb_neq; lia).
      rewrite lookup_replicate_2 by (apply Nat.div_lt; lia).
      cbn [mbind result_bind Py.bind].
      eexists. split; [reflexivity |].
      repeat split;
        (rewrite ?lookup_insert_ne by discriminate; apply lookup_insert_eq).
  - intros Hne. unfold CircleverseSimulation.get_global_statistics.
    rewrite reset_all_wealths.
    destruct (length (households sim)) as [|n] eqn:Hn.
    { destruct (households sim); [congruence | discriminate]. }
    change (replicate (S n) 0%float) with (0%float :: replicate n 0%float)
      at 1.
    cbv iota beta.
    rewrite min_zeros, max_zeros. unfold Py.sum. rewrite sum_zeros.
    unfold Py.truediv_int. rewrite length_replicate.
    replace (Z.of_nat (S n) =? 0) with false
      by (symmetry; apply Z.eqb_neq; lia).
    cbn [mbind result_bind Py.bind].
    eexists. split; [reflexivity |].
    repeat split;
      try (rewrite ?lookup_insert_ne by discriminate; apply lookup_insert_eq).
    rewrite lookup_insert_eq. do 2 f_equal.
    rewrite household_count. fold (households (CircleverseSimulation.reset sim)).
    rewrite reset_households_count, Hn. reflexivity.
Qed.

(** ** Minimum and maximum *)

Section Extremes.

Lemma fold_min_bound (rest : list float) :
  forall (seen : list float) (acc : float),
    acc ∈ seen -> Forall (fun y => float_le acc y) seen ->
    Forall (fun y => is_nan y = false) seen ->
    Forall (fun y => is_nan y = false) rest ->
    let m := fold_left (fun m y => if (y <? m)%float then y else m) rest acc in
    m ∈ seen ++ rest /\ Forall (fun y => float_le m y) (seen ++ rest).
Proof.
  induction rest as [|y rest IH]; intros seen acc Hin Hle Hseen Hrest;
    cbn zeta.
  - rewrite app_nil_r. split; assumption.
  - inversion Hrest as [|? ? Hy Hrest']; subst. cbn [fold_left].
    assert (Hacc : is_nan acc = false)
      by (rewrite Forall_forall in Hseen; apply Hseen, Hin).
    replace (seen ++ y :: rest) with ((seen ++ [y]) ++ rest)
      by (rewrite <- app_assoc; reflexivity).
    apply IH; try assumption.
    + apply elem_of_app.
      destruct (y <? acc)%float;
        [right; apply list_elem_of_here | left; exact Hin].
    + apply Forall_app. destruct (y <? acc)%float eqn:Hlt.
      * split.
        -- eapply Forall_impl; [exact Hle |]. intros z Hz.
           exact (leb_trans _ _ _ (ltb_leb _ _ Hlt) Hz).
        -- constructor; [apply leb_refl, Hy | constructor].
      * split; [exact Hle |].
        constructor; [apply not_ltb_leb; assumption | constructor].
    + apply Forall_app. split; [exact Hseen | constructor; auto].
Qed.

Lemma fold_max_bound (rest : list float) :
  forall (seen : list float) (acc : float),
    acc ∈ seen -> Forall (fun y => float_le y acc) seen ->
    Forall (fun y => is_nan y = false) seen ->
    Forall (fun y => is_nan y = false) rest ->
    let m := fold_left (fun m y => if (m <? y)%float then y else m) rest acc in
    m ∈ seen ++ rest /\ Forall (fun y => float_le y m) (seen ++ rest).
Proof.
  induction rest as [|y rest IH]; intros seen acc Hin Hle Hseen Hrest;
    cbn zeta.
  - rewrite app_nil_r. split; assumption.
  - inversion Hrest as [|? ? Hy Hrest']; subst. cbn [fold_left].
    assert (Hacc : is_nan acc = false)
      by (rewrite Forall_forall in Hseen; apply Hseen, Hin).
    replace (seen ++ y :: rest) with ((seen ++ [y]) ++ rest)
      by (rewrite <- app_assoc; reflexivity).
    apply IH; try assumption.
    + apply elem_of_app.
      destruct (acc <? y)%float;
        [right; apply list_elem_of_here | left; exact Hin].
    + apply Forall_app. destruct (acc <? y)%float eqn:Hlt.
      * split.
        -- eapply Forall_impl; [exact Hle |]. intros z Hz.
           exact (leb_trans _ _ _ Hz (ltb_leb _ _ Hlt)).
        -- constructor; [apply leb_refl, Hy | constructor].
      * split; [exact Hle |].
        constructor; [apply not_ltb_leb; assumption | constructor].
    + apply Forall_app. split; [exact Hseen | constructor; auto].
Qed.

End Extremes.

(** X10.  For a community with households whose wealths are numbers (none is
    NaN), the ["min"], ["max"] and ["median"] entries of
    [get_wealth_distribution] are wealths of households of the community,
    and every household's wealth lies between the minimum and the maximum
    reported. *)
Theorem distribution_extremes_bound_wealths (cv : Circlverse.t) :
  Circlverse.cluster_cubes cv <> [] ->
  Forall (fun w => is_nan w = false) (Circlverse.wealths cv) ->
  exists (d : gmap string float) (vmin vmax median : float),
    Circlverse.get_wealth_distribution cv = Py.Return d /\
    d !! "min"%string = Some vmin /\
    d !! "max"%string = Some vmax /\
    d !! "median"%string = Some median /\
    vmin ∈ Circlverse.wealths cv /\
    vmax ∈ Circlverse.wealths cv /\
    median ∈ Circlverse.wealths cv /\
    Forall (fun w => float_le vmin w /\ float_le w vmax)
      (Circlverse.wealths cv).
Proof.
  intros Hne Hnum. unfold Circlverse.get_wealth_distribution.
  destruct (Circlverse.cluster_cubes cv) as [|cube cubes] eqn:Hcubes;
    [congruence |].
  set (ws := Circlverse.wealths cv) in *.
  assert (Hlen : length ws = S (length cubes)).
  { unfold ws, Circlverse.wealths. rewrite Hcubes, length_map. reflexivity. }
  destruct (lookup_lt_is_Some_2 (Py.sorted ws) (length ws / 2)%nat)
    as [median Hmed].
  { rewrite sorted_length, Hlen. apply Nat.div_lt; lia. }
  assert (Hmedin : median ∈ ws).
  { rewrite <- (sorted_permutation ws).
    apply list_elem_of_lookup. eauto. }
  destruct ws as [|w ws'] eqn:Hws; [discriminate |].
  inversion Hnum as [|? ? Hw Hrest]; subst.
  destruct (fold_min_bound ws' [w] w) as [Hminin Hmin];
    [apply list_elem_of_here | repeat constructor; apply leb_refl, Hw
     | repeat constructor; exact Hw | exact Hrest |].
  destruct (fold_max_bound ws' [w] w) as [Hmaxin Hmax];
    [apply list_elem_of_here | repeat constructor; apply leb_refl, Hw
     | repeat constructor; exact Hw | exact Hrest |].
  cbn zeta in *. cbn [app] in *.
  unfold Py.truediv_int, Py.getitem. rewrite half_index, Hmed.
  replace (Z.of_nat (length (w :: ws')) =? 0) with false
    by (symmetry; apply Z.eqb_neq; cbn [length]; lia).
  cbn [Py.min Py.max mbind result_bind Py.bind].
  eexists. eexists. eexists. exists median.
  split; [reflexivity |].
  split; [apply lookup_insert_eq |].
  split; [rewrite lookup_insert_ne by discriminate; apply lookup_insert_eq |].
  split; [rewrite !lookup_insert_ne by discriminate; apply lookup_insert_eq |].
  split; [exact Hminin |]. split; [exact Hmaxin |]. split; [exact Hmedin |].
  apply Forall_forall. intros z Hz.
  rewrite Forall_forall in Hmin, Hmax. split; auto.
Qed.

(** The community of two sample households with wealths 0 and 250. *)
Lemma distribution_extremes_bound_wealths_sample :
  let cv := sample_circlverse [0%float; 250%float] in
  (Circlverse.cluster_cubes cv <> [] /\
   Forall (fun w => is_nan w = false) (Circlverse.wealths cv)) /\
  exists (d : gmap string float) (vmin vmax median : float),
    Circlverse.get_wealth_distribution cv = Py.Return d /\
    d !! "min"%string = Some vmin /\
    d !! "max"%string = Some vmax /\
    d !! "median"%string = Some median /\
    vmin ∈ Circlverse.wealths cv /\
    vmax ∈ Circlverse.wealths cv /\
    median ∈ Circlverse.wealths cv /\
    Forall (fun w => float_le vmin w /\ float_le w vmax)
      (Circlverse.wealths cv).
Proof.
  assert (Hne : Circlverse.cluster_cubes
                  (sample_circlverse [0%float; 250%float]) <> [])
    by discriminate.
  assert (Hnum : Forall (fun w => is_nan w = false)
                   (Circlverse.wealths
                      (sample_circlverse [0%float; 250%float])))
    by (repeat constructor).
  split; [split; assumption |].
  exact (distribution_extremes_bound_wealths
           (sample_circlverse [0%float; 250%float]) Hne Hnum).
Defined.

(** ** Members and their income *)

Section Members.

Import ClusterCube.

Lemma working_positions_length (ds : list Dot.t) :
  forall i : nat,
    length (working_positions ds i) = length (List.filter employed ds).
Proof.
  induction ds as [|d ds IH]; intros i; [reflexivity |].
  cbn [working_positions List.filter].
  destruct (employed d); cbn [length]; rewrite IH; reflexivity.
Qed.

Lemma lose_job_not_employed (d : Dot.t) : employed (lose_job d) = false.
Proof. reflexivity. Qed.

(** Taking the job of an employed member leaves one employed member less. *)
Lemma alter_lose_job_count (ds : list Dot.t) :
  forall (j : nat) (d : Dot.t),
    ds !! j = Some d -> employed d = true ->
    S (length (List.filter employed (alter lose_job j ds)))
    = length (List.filter employed ds).
Proof.
  induction ds as [|d0 ds IH]; intros j d Hj Hd; [discriminate |].
  destruct j as [|j].
  - injection Hj as ->. cbn [alter list_alter List.filter].
    rewrite lose_job_not_employed, Hd. reflexivity.
  - cbn [alter list_alter List.filter].
    change (list_alter lose_job j ds) with (alter lose_job j ds).
    destruct (employed d0); cbn [length]; rewrite <- (IH j d Hj Hd);
      reflexivity.
Qed.

Lemma alter_lose_job_ages (ds : list Dot.t) :
  forall j : nat, map Dot.age (alter lose_job j ds) = map Dot.age ds.
Proof.
  induction ds as [|d ds IH]; intros j; [reflexivity |].
  destruct j as [|j]; [reflexivity |].
  cbn [alter list_alter map].
  change (list_alter lose_job j ds) with (alter lose_job j ds).
  rewrite IH. reflexivity.
Qed.

Lemma job_loss_count (h : t) (magnitude : float) (choice : nat) :
  length (employed_members
            (apply_economic_shock h "job_loss" magnitude choice))
  = (length (employed_members h) - 1)%nat.
Proof.
  unfold apply_economic_shock, employed_members.
  rewrite bool_decide_eq_true_2 by reflexivity.
  pose proof (working_positions_length (dots h) 0) as Hlen.
  destruct (working_positions (dots h) 0) as [|p ps] eqn:Hwp.
  - cbn [length] in Hlen. rewrite <- Hlen. reflexivity.
  - set (j := nth (choice mod length (p :: ps))%nat (p :: ps) p).
    assert (Hj : j ∈ working_positions (dots h) 0).
    { rewrite Hwp. apply nth_elem_of.
      apply Nat.mod_upper_bound. discriminate. }
    apply working_positions_employed in Hj as (_ & d & Hd & He).
    rewrite Nat.sub_0_r in Hd. clearbody j. cbn [set_dots dots].
    rewrite <- (alter_lose_job_count _ _ _ Hd He). lia.
Qed.

(** A member who is not employed has no income. *)
Lemma income_not_employed (d : Dot.t) :
  employed d = false -> Dot.get_monthly_income d = 0%float.
Proof.
  destruct d as [age occ working]. unfold employed, Dot.get_monthly_income.
  cbn [Dot.is_working Dot.occupation Dot.age].
  destruct working; [| reflexivity]. cbn [negb andb].
  destruct occ; cbn; try discriminate. intros _.
  destruct ((25 <=? age) && (age <=? 50)); [reflexivity |].
  destruct ((age <? 25) || (65 <? age)); reflexivity.
Qed.

Lemma total_income_none_employed (h : t) :
  employed_members h = [] -> get_total_income h = 0%float.
Proof.
  unfold employed_members, get_total_income, Py.sum.
  induction (dots h) as [|d ds IH]; [reflexivity |].
  cbn [List.filter map fold_left].
  destruct (employed d) eqn:Hd; [discriminate |].
  intros Hnil. rewrite (income_not_employed d Hd).
  change (0 + 0)%float with 0%float. exact (IH Hnil).
Qed.

End Members.

(** X11.  Every [job_loss] shock leaves exactly one employed member less,
    until none is left: after the shocks of [choices], whatever they draw,
    the household has [max(0, e - length choices)] employed members if it had
    [e].  A household without employed members has total income 0. *)
Theorem job_losses_count_down (h : ClusterCube.t) (choices : list nat) :
  length (employed_members (job_losses h choices))
  = (length (employed_members h) - length choices)%nat /\
  (employed_members h = [] -> ClusterCube.get_total_income h = 0%float) /\
  (length (employed_members h) <= length choices ->
   ClusterCube.get_total_income (job_losses h choices) = 0%float)%nat.
Proof.
  assert (Hcount : forall cs h0,
             length (employed_members (job_losses h0 cs))
             = (length (employed_members h0) - length cs)%nat).
  { induction cs as [|c cs IH]; intros h0; cbn [job_losses fold_left length].
    - lia.
    - change (fold_left _ cs ?x) with (job_losses x cs).
      rewrite IH, job_loss_count. lia. }
  split; [apply Hcount | split].
  - apply total_income_none_employed.
  - intros Hle. apply total_income_none_employed.
    apply length_zero_iff_nil. rewrite Hcount. lia.
Qed.

(** The scenario household has one employed member; one job loss leaves it
    without income. *)
Lemma job_losses_count_down_sample :
  let h := scenario_household "home" (fun _ => (30, SERVICE)) in
  (length (employed_members h) <= length [7%nat])%nat /\
  ClusterCube.get_total_income (job_losses h [7%nat]) = 0%float.
Proof.
  assert (Hle : (length (employed_members
                           (scenario_household "home"
                              (fun _ => (30%Z, SERVICE))))
                 <= length [7%nat])%nat) by (vm_compute; lia).
  split; [exact Hle |].
  apply (proj2 (proj2 (job_losses_count_down
                         (scenario_household "home" (fun _ => (30, SERVICE)))
                         [7%nat]))).
  exact Hle.
Defined.

(** X12.  No shock of any kind touches the three histories, the expense
    baseline, the savings rate, the identity, the location, the dependents
    or the number and ages of the members.  The members change only under
    [job_loss]; the wealth changes only under [medical] and [windfall], which
    both add the magnitude as it is given. *)
Theorem shocks_leave_the_rest (h : ClusterCube.t) (kind : string)
    (magnitude : float) (choice : nat) :
  let h' := ClusterCube.apply_economic_shock h kind magnitude choice in
  (ClusterCube.wealth_history h' = ClusterCube.wealth_history h /\
   ClusterCube.income_history h' = ClusterCube.income_history h /\
   ClusterCube.expense_history h' = ClusterCube.expense_history h /\
   ClusterCube.monthly_expenses h' = ClusterCube.monthly_expenses h /\
   ClusterCube.savings_rate h' = ClusterCube.savings_rate h /\
   ClusterCube.cube_id h' = ClusterCube.cube_id h /\
   ClusterCube.location h' = ClusterCube.location h /\
   ClusterCube.num_dots h' = ClusterCube.num_dots h /\
   ClusterCube.num_dependents h' = ClusterCube.num_dependents h /\
   map Dot.age (ClusterCube.dots h') = map Dot.age (ClusterCube.dots h)) /\
  (kind <> "job_loss"%string ->
   ClusterCube.dots h' = ClusterCube.dots h) /\
  (kind = "medical"%string \/ kind = "windfall"%string ->
   ClusterCube.current_wealth h'
   = (ClusterCube.current_wealth h + magnitude)%float) /\
  (kind <> "medical"%string -> kind <> "windfall"%string ->
   ClusterCube.current_wealth h' = ClusterCube.current_wealth h).
Proof.
  cbn zeta. unfold ClusterCube.apply_economic_shock.
  destruct (bool_decide (kind = "job_loss"%string)) eqn:Hj.
  - apply bool_decide_eq_true_1 in Hj. subst kind.
    split; [| split; [congruence | split; [intros [H|H]; discriminate |]]].
    + destruct (ClusterCube.working_positions _ _) as [|p ps];
        repeat split; try reflexivity.
      apply alter_lose_job_ages.
    + destruct (ClusterCube.working_positions _ _); reflexivity.
  - apply bool_decide_eq_false_1 in Hj.
    destruct (bool_decide (kind = "medical"%string)) eqn:Hm;
      [| destruct (bool_decide (kind = "windfall"%string)) eqn:Hw].
    + apply bool_decide_eq_true_1 in Hm.
      repeat split; try reflexivity. congruence.
    + apply bool_decide_eq_true_1 in Hw.
      repeat split; try reflexivity. congruence.
    + apply bool_decide_eq_false_1 in Hm.
      apply bool_decide_eq_false_1 in Hw.
      repeat split; try reflexivity. intros [H|H]; congruence.
Qed.

(** A medical expense of 5000 on a sample household of wealth 250. *)
Lemma shocks_leave_the_rest_sample :
  let h := sample_cube "home" 250%float in
  let h' := ClusterCube.apply_economic_shock h "medical" (-5000)%float 0 in
  ("medical"%string <> "job_loss"%string /\
   ("medical"%string = "medical"%string
    \/ "medical"%string = "windfall"%string)) /\
  ClusterCube.dots h' = ClusterCube.dots h /\
  ClusterCube.current_wealth h'
  = (ClusterCube.current_wealth h + -5000)%float.
Proof.
  pose proof (shocks_leave_the_rest (sample_cube "home" 250%float) "medical"
                (-5000)%float 0) as (_ & Hdots & Hwealth & _).
  assert (H1 : "medical"%string <> "job_loss"%string) by discriminate.
  assert (H2 : "medical"%string = "medical"%string
               \/ "medical"%string = "windfall"%string)
    by (left; reflexivity).
  split; [split; assumption |].
  split; [exact (Hdots H1) | exact (Hwealth H2)].
Defined.

(** X13.  A member's monthly income is 0 when the member is not employed
    (not working, or of occupation unemployed), and lies between 2000 and
    9600 otherwise, whatever the age. *)
Theorem monthly_income_range (d : Dot.t) :
  (ClusterCube.employed d = false -> Dot.get_monthly_income d = 0%float) /\
  (ClusterCube.employed d = true ->
   (2000 <=? Dot.get_monthly_income d)%float = true /\
   (Dot.get_monthly_income d <=? 9600)%float = true).
Proof.
  split; [apply income_not_employed |].
  destruct d as [age occ working].
  unfold ClusterCube.employed, Dot.get_monthly_income.
  cbn [Dot.is_working Dot.occupation Dot.age].
  destruct working; [| discriminate]. cbn [negb andb].
  destruct ((25 <=? age) && (age <=? 50)), ((age <? 25) || (65 <? age)),
    occ; cbn; intros H; try discriminate; split; reflexivity.
Qed.

(** The working professional of the scenario earns within the range. *)
Lemma monthly_income_range_sample :
  ClusterCube.employed (Dot.mk 35 PROFESSIONAL true) = true /\
  (2000 <=? Dot.get_monthly_income (Dot.mk 35 PROFESSIONAL true))%float
  = true /\
  (Dot.get_monthly_income (Dot.mk 35 PROFESSIONAL true) <=? 9600)%float
  = true.
Proof.
  split; [reflexivity |].
  apply (proj2 (monthly_income_range (Dot.mk 35 PROFESSIONAL true))).
  reflexivity.
Defined.

(** ** Construction of a household *)

Section Construction.

Import ClusterCube.

Lemma post_init_dots (h : t) (draws : nat -> Z * OccupationType) :
  dots (__post_init__ h draws)
  = match dots h with
    | [] => if 0 <? num_dots h then _generate_dots h draws else []
    | _ :: _ => dots h
    end.
Proof.
  unfold __post_init__, _calculate_base_expenses.
  destruct (dots h) as [|d ds] eqn:Hd; cbn [set_monthly_expenses dots].
  - destruct (0 <? num_dots h); [reflexivity | exact Hd].
  - exact Hd.
Qed.

Lemma generate_dots_length (h : t) (draws : nat -> Z * OccupationType) :
  length (_generate_dots h draws) = Z.to_nat (num_dots h).
Proof. unfold _generate_dots. rewrite length_map, length_seq. reflexivity. Qed.

End Construction.

(** X14.  Construction of a household: a member list that is given is kept
    as it is; without one, exactly [num_dots] members are generated (none
    for [num_dots <= 0]).  Either way the expense baseline is
    [2300 + 650 * (num_dots + num_dependents)], computed from the declared
    number of members and not from the list, and wealth, savings rate and
    histories are those passed in. *)
Theorem construction_members_and_baseline (h : ClusterCube.t)
    (draws : nat -> Z * OccupationType) :
  let h' := ClusterCube.__post_init__ h draws in
  ClusterCube.monthly_expenses h'
  = Py.of_Z (2300 + 650 * (ClusterCube.num_dots h
                           + ClusterCube.num_dependents h)) /\
  (ClusterCube.dots h <> [] -> ClusterCube.dots h' = ClusterCube.dots h) /\
  (ClusterCube.dots h = [] ->
   length (ClusterCube.dots h') = Z.to_nat (ClusterCube.num_dots h)) /\
  ClusterCube.current_wealth h' = ClusterCube.current_wealth h /\
  ClusterCube.savings_rate h' = ClusterCube.savings_rate h /\
  ClusterCube.wealth_history h' = ClusterCube.wealth_history h /\
  ClusterCube.income_history h' = ClusterCube.income_history h /\
  ClusterCube.expense_history h' = ClusterCube.expense_history h.
Proof.
  cbn zeta. split; [| split; [| split]].
  - unfold ClusterCube.__post_init__, ClusterCube._calculate_base_expenses.
    cbn [ClusterCube.set_monthly_expenses ClusterCube.monthly_expenses].
    f_equal.
    destruct (ClusterCube.dots h); [destruct (0 <? _) |]; cbn; lia.
  - intros Hne. rewrite post_init_dots.
    destruct (ClusterCube.dots h); [congruence | reflexivity].
  - intros Hnil. rewrite post_init_dots, Hnil.
    destruct (0 <? ClusterCube.num_dots h) eqn:Hn.
    + apply generate_dots_length.
    + apply Z.ltb_ge in Hn. cbn. lia.
  - unfold ClusterCube.__post_init__, ClusterCube._calculate_base_expenses.
    destruct (ClusterCube.dots h); [destruct (0 <? _) |]; repeat split.
Qed.

(** The scenario household is built from a list of two members. *)
Lemma construction_members_and_baseline_sample :
  let h :=
    ClusterCube.mk "home" 2
      [Dot.mk 35 PROFESSIONAL true; Dot.mk 32 UNEMPLOYED false]
      0 (0%float, 0%float) 0.0%float 0.20%float 0.0%float [] [] [] in
  ClusterCube.dots h <> [] /\
  ClusterCube.dots (ClusterCube.__post_init__ h (fun _ => (30, SERVICE)))
  = ClusterCube.dots h.
Proof.
  split; [discriminate |].
  apply (proj1 (proj2 (construction_members_and_baseline
                         (ClusterCube.mk "home" 2
                            [Dot.mk 35 PROFESSIONAL true;
                             Dot.mk 32 UNEMPLOYED false]
                            0 (0%float, 0%float) 0.0%float 0.20%float
                            0.0%float [] [] [])
                         (fun _ => (30, SERVICE))))).
  discriminate.
Defined.

(** X15.  In a household built without a member list, member [i] has the
    age drawn for it; it is working exactly when that age is from 18 to 65,
    and outside that range its occupation is unemployed, so it has no
    income. *)
Theorem generated_members_working_age (h : ClusterCube.t)
    (draws : nat -> Z * OccupationType) :
  ClusterCube.dots h = [] ->
  forall (i : nat) (d : Dot.t),
    ClusterCube.dots (ClusterCube.__post_init__ h draws) !! i = Some d ->
    Dot.age d = (draws i).1 /\
    (Dot.is_working d = true <-> 18 <= Dot.age d <= 65) /\
    (Dot.age d < 18 \/ 65 < Dot.age d ->
     Dot.occupation d = UNEMPLOYED /\ Dot.get_monthly_income d = 0%float).
Proof.
  intros Hnil i d. rewrite post_init_dots, Hnil.
  destruct (0 <? ClusterCube.num_dots h); [| discriminate].
  unfold ClusterCube._generate_dots. rewrite list_lookup_fmap.
  destruct (seq 0 (Z.to_nat (ClusterCube.num_dots h)) !! i) as [j|] eqn:Hj;
    [| discriminate].
  apply lookup_seq in Hj as [-> _]. cbn [fmap option_fmap option_map].
  intros [= <-]. cbn [Dot.age Dot.is_working Dot.occupation Nat.add].
  split; [reflexivity | split].
  - rewrite andb_true_iff, !Z.leb_le. reflexivity.
  - intros Hout.
    assert (Hb : ((draws i).1 <? 18) || (65 <? (draws i).1) = true).
    { apply orb_true_iff. rewrite !Z.ltb_lt. exact Hout. }
    rewrite Hb. split; [reflexivity |].
    apply income_not_employed. unfold ClusterCube.employed.
    cbn [Dot.is_working Dot.occupation].
    rewrite bool_decide_eq_true_2 by reflexivity. apply andb_false_r.
Qed.

(** A household of three generated members, all drawn at age 70. *)
Lemma generated_members_working_age_sample :
  let h := ClusterCube.default "home" 3 in
  let draws := fun _ : nat => (70, PROFESSIONAL) in
  ClusterCube.dots h = [] /\
  ClusterCube.dots (ClusterCube.__post_init__ h draws) !! 1%nat
  = Some (Dot.mk 70 UNEMPLOYED false) /\
  (Dot.age (Dot.mk 70 UNEMPLOYED false) < 18
   \/ 65 < Dot.age (Dot.mk 70 UNEMPLOYED false) ->
   Dot.occupation (Dot.mk 70 UNEMPLOYED false) = UNEMPLOYED /\
   Dot.get_monthly_income (Dot.mk 70 UNEMPLOYED false) = 0%float).
Proof.
  assert (Hnil : ClusterCube.dots (ClusterCube.default "home" 3) = [])
    by reflexivity.
  assert (Hd : ClusterCube.dots
                 (ClusterCube.__post_init__ (ClusterCube.default "home" 3)
                    (fun _ : nat => (70, PROFESSIONAL))) !! 1%nat
               = Some (Dot.mk 70 UNEMPLOYED false)) by reflexivity.
  split; [exact Hnil | split; [exact Hd |]].
  exact (proj2 (proj2 (generated_members_working_age
                         (ClusterCube.default "home" 3)
                         (fun _ : nat => (70, PROFESSIONAL)) Hnil
                         1%nat (Dot.mk 70 UNEMPLOYED false) Hd))).
Defined.

(** ** Export *)

Section CsvExport.

(** A loop whose every iteration returns rows of ten cells, [count x] of
    them, returns rows of ten cells, as many as the counts add up to. *)
Lemma rows_of_returns {A : Type}
    (body : A -> Py.result (list (list Csv.cell))) (count : A -> nat)
    (xs : list A) :
  (forall x, exists rows,
      body x = Py.Return rows /\
      Forall (fun row => length row = 10%nat) rows /\
      length rows = count x) ->
  exists rows,
    rows_of body xs = Py.Return rows /\
    Forall (fun row => length row = 10%nat) rows /\
    length rows = sum_list_with count xs.
Proof.
  intros Hbody. induction xs as [|x xs IH].
  - exists []. repeat split. constructor.
  - destruct (Hbody x) as (rows & Hx & Hten & Hlen).
    destruct IH as (rest & Hxs & Hten' & Hlen').
    exists (rows ++ rest). cbn [rows_of]. rewrite Hx, Hxs.
    split; [reflexivity | split].
    + apply Forall_app. split; assumption.
    + rewrite length_app, Hlen, Hlen'. reflexivity.
Qed.

Lemma entry_or_zero_returns (history : list float) (month : nat) :
  exists c, entry_or_zero history month = Py.Return c.
Proof.
  unfold entry_or_zero, Py.getitem.
  destruct (month <? length history)%nat eqn:Hm; [| eauto].
  apply Nat.ltb_lt in Hm.
  destruct (lookup_lt_is_Some_2 history month Hm) as [x Hx].
  rewrite Hx. eauto.
Qed.

(** The number of rows a household contributes for a month. *)
Lemma export_cube_returns (month : nat) (cv : Circlverse.t)
    (cube : ClusterCube.t) :
  exists rows,
    export_cube month cv cube = Py.Return rows /\
    Forall (fun row => length row = 10%nat) rows /\
    length rows
    = if (month <? length (ClusterCube.wealth_history cube))%nat
      then 1%nat else 0%nat.
Proof.
  unfold export_cube, Py.getitem.
  destruct (month <? length (ClusterCube.wealth_history cube))%nat eqn:Hm.
  - apply Nat.ltb_lt in Hm.
    destruct (lookup_lt_is_Some_2 _ month Hm) as [w Hw]. rewrite Hw.
    destruct (entry_or_zero_returns (ClusterCube.income_history cube) month)
      as [i Hi].
    destruct (entry_or_zero_returns (ClusterCube.expense_history cube) month)
      as [e He].
    cbn [mbind result_bind Py.bind]. rewrite Hi, He.
    eexists. split; [reflexivity |]. repeat constructor.
  - exists []. repeat split. constructor.
Qed.

Lemma sum_list_with_const {A : Type} (f : A -> nat) (c : nat) (xs : list A) :
  Forall (fun x => f x = c) xs -> sum_list_with f xs = (length xs * c)%nat.
Proof.
  induction 1 as [|x xs Hx _ IH]; [reflexivity |].
  cbn [sum_list_with length]. rewrite Hx, IH. lia.
Qed.

End CsvExport.

(** X16.  [export_to_csv] never raises on an index: it returns the header
    row followed by rows of ten cells each, for every simulation, also when
    the three histories of a household differ in length.  With the counter
    at 0, as after [reset], the header is all that is written; and when the
    wealth history of every household reaches the counter, there is one row
    per household and month. *)
Theorem export_writes_well_formed_rows (sim : CircleverseSimulation.t) :
  exists data : list (list Csv.cell),
    export_to_csv sim = Py.Return (export_header :: data) /\
    Forall (fun row => length row = 10%nat) (export_header :: data) /\
    (CircleverseSimulation.current_month sim <= 0 -> data = []) /\
    export_to_csv (CircleverseSimulation.reset sim)
    = Py.Return [export_header] /\
    (Forall (fun cube =>
               (Z.to_nat (CircleverseSimulation.current_month sim)
                <= length (ClusterCube.wealth_history cube))%nat)
       (households sim) ->
     length data
     = (Z.to_nat (CircleverseSimulation.current_month sim)
        * length (households sim))%nat).
Proof.
  unfold export_to_csv.
  set (months := seq 0 (Z.to_nat (CircleverseSimulation.current_month sim))).
  set (cube_count := fun (month : nat) (cube : ClusterCube.t) =>
         if (month <? length (ClusterCube.wealth_history cube))%nat
         then 1%nat else 0%nat).
  set (cv_count := fun (month : nat) (cv : Circlverse.t) =>
         sum_list_with (cube_count month) (Circlverse.cluster_cubes cv)).
  set (month_count := fun month : nat =>
         sum_list_with (cv_count month)
           (CircleverseSimulation.circlverses sim)).
  destruct (rows_of_returns
              (fun month =>
                 rows_of
                   (fun cv =>
                      rows_of (export_cube month cv)
                        (Circlverse.cluster_cubes cv))
                   (CircleverseSimulation.circlverses sim))
              month_count months) as (data & Hdata & Hten & Hlen).
  { intros month. apply rows_of_returns. intros cv.
    apply (rows_of_returns _ (cube_count month)). intros cube.
    apply export_cube_returns. }
  exists data. rewrite Hdata. split; [reflexivity |].
  split; [constructor; [reflexivity | exact Hten] |].
  split; [| split].
  - intros Hm. subst months.
    replace (Z.to_nat (CircleverseSimulation.current_month sim)) with 0%nat
      in * by lia.
    destruct data; [reflexivity | discriminate].
  - reflexivity.
  - intros Hreach. rewrite Hlen.
    rewrite (sum_list_with_const _ (length (households sim))).
    + subst months. rewrite length_seq. reflexivity.
    + apply Forall_forall. intros month Hin. subst months.
      apply elem_of_seq in Hin. unfold month_count, households.
      clear - Hreach Hin. unfold households in Hreach.
      induction (CircleverseSimulation.circlverses sim) as [|cv cvs IH];
        [reflexivity |].
      change (flat_map Circlverse.cluster_cubes (cv :: cvs))
        with (Circlverse.cluster_cubes cv
              ++ flat_map Circlverse.cluster_cubes cvs) in *.
      apply Forall_app in Hreach as [Hcv Hcvs].
      cbn [sum_list_with]. rewrite (IH Hcvs), length_app. f_equal.
      unfold cv_count.
      rewrite (sum_list_with_const _ 1%nat); [lia |].
      eapply Forall_impl; [exact Hcv |]. intros cube Hc. cbv beta in Hc.
      unfold cube_count.
      replace (month <? length (ClusterCube.wealth_history cube))%nat
        with true by (symmetry; apply Nat.ltb_lt; lia).
      reflexivity.
Qed.

(** The sample simulation has run two months with two households: four
    rows follow the header. *)
Lemma export_writes_well_formed_rows_sample :
  Forall (fun cube =>
            (Z.to_nat (CircleverseSimulation.current_month sample_simulation)
             <= length (ClusterCube.wealth_history cube))%nat)
    (households sample_simulation) /\
  exists data : list (list Csv.cell),
    export_to_csv sample_simulation = Py.Return (export_header :: data) /\
    length data = 4%nat.
Proof.
  assert (Hreach :
            Forall (fun cube =>
                      (Z.to_nat (CircleverseSimulation.current_month
                                   sample_simulation)
                       <= length (ClusterCube.wealth_history cube))%nat)
              (households sample_simulation))
    by (repeat constructor).
  split; [exact Hreach |].
  destruct (export_writes_well_formed_rows sample_simulation)
    as (data & Hdata & _ & _ & _ & Hlen).
  exists data. split; [exact Hdata |]. rewrite (Hlen Hreach). reflexivity.
Defined.

(** ** Global statistics *)

Section GlobalStatistics.

Import CircleverseSimulation.

Lemma all_wealths_households (sim : t) :
  all_wealths sim = map ClusterCube.current_wealth (households sim).
Proof.
  unfold all_wealths, households.
  induction (circlverses sim) as [|cv cvs IH]; [reflexivity |].
  change (Circlverse.wealths cv ++ flat_map Circlverse.wealths cvs
          = map ClusterCube.current_wealth
              (Circlverse.cluster_cubes cv
               ++ flat_map Circlverse.cluster_cubes cvs)).
  rewrite map_app, IH. reflexivity.
Qed.

End GlobalStatistics.

(** X17.  For a simulation with at least one household,
    [get_global_statistics] returns a dictionary of exactly seven keys whose
    household count is the number of households of all communities, whose
    total is the sum of their wealths, and whose average is that total
    divided by that count; the community count and the month are the
    simulation's. *)
Theorem global_statistics_are_consistent (sim : CircleverseSimulation.t) :
  households sim <> [] ->
  exists d : gmap string CircleverseSimulation.number,
    let n := Z.of_nat (length (households sim)) in
    let total := Py.sum (map ClusterCube.current_wealth (households sim)) in
    CircleverseSimulation.get_global_statistics sim = Py.Return d /\
    dom d
    = list_to_set
        ["total_households"; "total_circlverses"; "current_month";
         "global_avg_wealth"; "global_total_wealth"; "global_min_wealth";
         "global_max_wealth"]%string /\
    d !! "total_households"%string = Some (CircleverseSimulation.Int n) /\
    d !! "total_circlverses"%string
    = Some (CircleverseSimulation.Int
              (Z.of_nat (length (CircleverseSimulation.circlverses sim)))) /\
    d !! "current_month"%string
    = Some (CircleverseSimulation.Int
              (CircleverseSimulation.current_month sim)) /\
    d !! "global_total_wealth"%string
    = Some (CircleverseSimulation.Float total) /\
    d !! "global_avg_wealth"%string
    = Some (CircleverseSimulation.Float (total / Py.of_Z n)%float).
Proof.
  intros Hne. unfold CircleverseSimulation.get_global_statistics.
  rewrite all_wealths_households, household_count.
  fold (households sim).
  destruct (households sim) as [|c cs] eqn:Hh; [congruence |].
  cbn [map]. unfold Py.truediv_int. cbn [length].
  replace (Z.of_nat (S (length (map ClusterCube.current_wealth cs))) =? 0)
    with false by (symmetry; apply Z.eqb_neq; lia).
  cbn [Py.min Py.max mbind result_bind Py.bind].
  eexists. cbn zeta. split; [reflexivity |].
  split; [rewrite !dom_insert_L, dom_empty_L; reflexivity |].
  rewrite length_map.
  repeat split;
    (rewrite ?lookup_insert_ne by discriminate; apply lookup_insert_eq).
Qed.

(** The sample simulation has two households. *)
Lemma global_statistics_are_consistent_sample :
  households sample_simulation <> [] /\
  exists d : gmap string CircleverseSimulation.number,
    CircleverseSimulation.get_global_statistics sample_simulation
    = Py.Return d /\
    d !! "total_households"%string = Some (CircleverseSimulation.Int 2) /\
    d !! "current_month"%string = Some (CircleverseSimulation.Int 2).
Proof.
  assert (Hne : households sample_simulation <> []) by discriminate.
  split; [exact Hne |].
  destruct (global_statistics_are_consistent sample_simulation Hne)
    as (d & Hd & _ & Hn & _ & Hm & _).
  exists d. split; [exact Hd | split; [exact Hn | exact Hm]].
Defined.

(** ** Parallel histories *)

Section Parallel.

Import CircleverseSimulation.

Lemma evolves_parallel (k : nat) (c c' : ClusterCube.t) :
  household_evolves k c c' -> parallel c -> parallel c'.
Proof.
  intros (_ & Hw & Hi & He & _) [H1 H2]. unfold parallel.
  apply appended_length in Hw, Hi, He. lia.
Qed.

Lemma households_evolve_parallel (k : nat) (hs hs' : list ClusterCube.t) :
  Forall2 (household_evolves k) hs hs' ->
  Forall parallel hs -> Forall parallel hs'.
Proof.
  induction 1 as [|c c' hs hs' Hc _ IH]; intros Hp; [constructor |].
  inversion Hp; subst.
  constructor; [eapply evolves_parallel; eassumption | auto].
Qed.

Lemma step_parallel (sim : t) (n : Z) (g : Random.t) :
  Forall parallel (households sim) ->
  Forall parallel (households (step sim n g).1).
Proof.
  destruct (step_evolves sim n g) as [H _].
  apply (households_evolve_parallel _ _ _
           (communities_evolve_households _ _ _ H)).
Qed.

Lemma shock_parallel (c : ClusterCube.t) (kind : string) (magnitude : float)
    (choice : nat) :
  parallel c ->
  parallel (ClusterCube.apply_economic_shock c kind magnitude choice).
Proof.
  unfold ClusterCube.apply_economic_shock, parallel.
  repeat case_bool_decide; try exact id.
  destruct (ClusterCube.working_positions _ _); exact id.
Qed.

(** Changing one community changes the households of that community. *)
Lemma households_alter (P : ClusterCube.t -> Prop)
    (f : Circlverse.t -> Circlverse.t) (i : nat) (cvs : list Circlverse.t) :
  (forall cv,
      Forall P (Circlverse.cluster_cubes cv) ->
      Forall P (Circlverse.cluster_cubes (f cv))) ->
  Forall P (flat_map Circlverse.cluster_cubes cvs) ->
  Forall P (flat_map Circlverse.cluster_cubes (alter f i cvs)).
Proof.
  intros Hf. revert i. induction cvs as [|cv cvs IH]; intros i H;
    [exact H |].
  change (flat_map Circlverse.cluster_cubes (cv :: cvs))
    with (Circlverse.cluster_cubes cv
          ++ flat_map Circlverse.cluster_cubes cvs) in H.
  apply Forall_app in H as [Hcv Hcvs].
  destruct i as [|i]; cbn [alter list_alter].
  - change (Forall P (Circlverse.cluster_cubes (f cv)
                      ++ flat_map Circlverse.cluster_cubes cvs)).
    apply Forall_app. split; [apply Hf, Hcv | exact Hcvs].
  - change (Forall P (Circlverse.cluster_cubes cv
                      ++ flat_map Circlverse.cluster_cubes
                           (alter f i cvs))).
    apply Forall_app. split; [exact Hcv | apply IH, Hcvs].
Qed.

Lemma call_step_sim (months : Z) (s : Session.t) :
  Session.sim (Session.call_step months s)
  = (step (Session.sim s) months (Session.rng s)).1.
Proof.
  unfold Session.call_step.
  destruct (step (Session.sim s) months (Session.rng s)); reflexivity.
Qed.

Lemma call_run_until_loop_parallel (fuel : nat) (target : Z) :
  forall s : Session.t,
    Forall parallel (households (Session.sim s)) ->
    Forall parallel
      (households (Session.sim (Session.call_run_until_loop fuel target s))).
Proof.
  induction fuel as [|fuel IH]; intros s Hs; cbn; [exact Hs |].
  destruct (_ && _); [| exact Hs].
  apply IH. rewrite call_step_sim. apply step_parallel, Hs.
Qed.

Lemma exec_parallel (s : Session.t) (c : Session.command) :
  brings_parallel c ->
  Forall parallel (households (Session.sim s)) ->
  Forall parallel (households (Session.sim (Session.exec s c))).
Proof.
  intros Hc Hs. destruct c; cbn [Session.exec brings_parallel] in *.
  - unfold households in *. cbn. rewrite flat_map_app.
    apply Forall_app. split; [exact Hs |].
    cbn. rewrite app_nil_r. exact Hc.
  - unfold households in *. cbn. apply households_alter; [| exact Hs].
    intros cv0 H0. cbn. apply Forall_app. split; [exact H0 |].
    constructor; [exact Hc | constructor].
  - unfold households in *. cbn. apply households_alter; [| exact Hs].
    intros cv0 H0. cbn.
    clear - H0. revert j.
    induction (Circlverse.cluster_cubes cv0) as [|c0 cs IH]; intros j;
      [constructor |].
    inversion H0; subst. destruct j as [|j]; cbn [alter list_alter].
    + constructor; [apply shock_parallel; assumption | assumption].
    + constructor; [assumption | apply IH; assumption].
  - rewrite call_step_sim. apply step_parallel, Hs.
  - apply call_run_until_loop_parallel, Hs.
  - exact Hs.
  - exact Hs.
  - unfold households. cbn. clear.
    induction (circlverses (Session.sim s)) as [|cv cvs IH];
      [constructor |].
    change (Forall parallel
              (Circlverse.cluster_cubes (reset_circlverse cv)
               ++ flat_map Circlverse.cluster_cubes
                    (map reset_circlverse cvs))).
    apply Forall_app. split; [| exact IH].
    cbn. apply Forall_map, Forall_true. intros c. split; reflexivity.
Qed.

End Parallel.

(** X18.  Through a whole session the three histories of every household
    stay parallel: if every household that the commands add has wealth,
    income and expense histories of one length, then after any sequence of
    steps, runs, shocks, pauses, resumes, resets and additions every
    household of the simulation has. *)
Theorem histories_stay_parallel (cs : list Session.command) (g : Random.t) :
  Forall brings_parallel cs ->
  Forall parallel (households (Session.sim (Session.run cs (Session.start g)))).
Proof.
  intros Hcs. unfold Session.run.
  assert (H0 : Forall parallel (households (Session.sim (Session.start g))))
    by constructor.
  revert H0. generalize (Session.start g).
  induction Hcs as [|c cs Hc _ IH]; intros s Hs; [exact Hs |].
  cbn [fold_left]. apply IH, exec_parallel; assumption.
Qed.

(** A session that adds a community of two sample households, steps, shocks
    one household, runs on and resets. *)
Lemma histories_stay_parallel_sample :
  let cs :=
    [Session.AddCirclverse (sample_circlverse [0%float; 250%float]);
     Session.Step 2;
     Session.Shock 0 1 "job_loss" 0%float 0;
     Session.RunUntil 5;
     Session.AddClusterCube 0 (sample_cube "late" 10%float)
       (1%float, 2%float);
     Session.Step 1] in
  Forall brings_parallel cs /\
  Forall parallel
    (households (Session.sim (Session.run cs (Session.start steady)))).
Proof.
  assert (Hcs : Forall brings_parallel
                  [Session.AddCirclverse
                     (sample_circlverse [0%float; 250%float]);
                   Session.Step 2;
                   Session.Shock 0 1 "job_loss" 0%float 0;
                   Session.RunUntil 5;
                   Session.AddClusterCube 0 (sample_cube "late" 10%float)
                     (1%float, 2%float);
                   Session.Step 1])
    by (repeat constructor).
  split; [exact Hcs |].
  exact (histories_stay_parallel _ steady Hcs).
Defined.

(** The first household of a fresh community, three months on. *)
Lemma stepping_never_lowers_wealth_sample :
  let sim :=
    CircleverseSimulation.add_circlverse CircleverseSimulation.__init__
      (sample_circlverse [0%float; 250%float]) in
  (0 <=? ClusterCube.savings_rate (sample_cube "home" 0%float))%float = true /\
  exists c' : ClusterCube.t,
    households (CircleverseSimulation.step sim 3 steady).1 !! 0%nat
    = Some c' /\
    (ClusterCube.current_wealth c'
     <? ClusterCube.current_wealth (sample_cube "home" 0%float))%float
    = false.
Proof.
  intros sim.
  assert (Hr : (0 <=? ClusterCube.savings_rate
                        (sample_cube "home" 0%float))%float = true)
    by reflexivity.
  split; [exact Hr |].
  destruct (Forall2_lookup_l _ _ _ 0%nat (sample_cube "home" 0%float)
              (proj1 (stepping_never_lowers_wealth sim 3 0 steady)) eq_refl)
    as (c' & Hc' & Hk).
  exists c'. split; [exact Hc' | exact (Hk Hr)].
Defined.

(** The sample simulation, reset: its statistics are all zero. *)
Lemma after_reset_all_is_zero_sample :
  households sample_simulation <> [] /\
  exists d : gmap string CircleverseSimulation.number,
    CircleverseSimulation.get_global_statistics
      (CircleverseSimulation.reset sample_simulation) = Py.Return d /\
    d !! "global_total_wealth"%string
    = Some (CircleverseSimulation.Float 0%float).
Proof.
  assert (Hne : households sample_simulation <> []) by discriminate.
  split; [exact Hne |].
  destruct (proj2 (proj2 (after_reset_all_is_zero sample_simulation)) Hne)
    as (d & Hd & _ & _ & Ht & _).
  exists d. split; [exact Hd | exact Ht].
Defined.
